(** * Snowplow payload normalisation: a shallow embedding

    The development embeds the payload parsers of the tracking tool and the
    code around them,

    - [Const]          : src/utils/const.js (the parser that takes
                         [encodeBase64]),
    - [WebWorker]      : src/utils/parseWithWebWorker.js (the parser with the
                         chunked and the worker paths),
    - [SnowplowParser] : src/utils/transformSnowplowPayload.js (the parser of
                         one argument),
    - [ErrorHandler]   : src/utils/errorHandler.js (the filter of the error
                         reports),
    - [Outbound]       : src/utils/const.js (the request id and the outbound
                         record),
    - [CustomFetch]    : src/hooks/useCustomFetch.js (the merged headers),

    over a common model of JavaScript values.  What belongs to the platform
    (JSON.parse, atob, TextDecoder, Date.now, Worker, ...) is an interface,
    [Host]; theorems quantify over every host, and [Reference.host] is an
    executable one for running the parsers on concrete payloads. *)

From Stdlib Require Import String Ascii List NArith ZArith Bool Lia Arith.
Import ListNotations.

Set Implicit Arguments.
Set Warnings "-register-all".

(** ** JavaScript strings

    A JS string is a sequence of UTF-16 code units.  A binary string (what
    [atob] returns) is the special case where every unit is below 256. *)

Definition code_unit := N.
Definition jstring := list code_unit.

Definition ch (a : ascii) : code_unit := N_of_ascii a.

(** [js "text"] is the JS string literal with the given ASCII text. *)
Definition js (s : string) : jstring := map ch (list_ascii_of_string s).

Fixpoint jstr_eqb (a b : jstring) : bool :=
  match a, b with
  | [], [] => true
  | x :: a', y :: b' => N.eqb x y && jstr_eqb a' b'
  | _, _ => false
  end.

(** ** Numbers

    A JS number is an IEEE-754 binary64 value, kept as its 64-bit pattern.
    The parsers never compute with numbers: they test truthiness, convert with
    [Number(...)] (through the host) and copy. *)

Definition number := N.

Definition num_pos_zero : number := 0%N.
Definition num_neg_zero : number := 9223372036854775808%N.       (* 2^63 *)
Definition num_NaN : number := 9221120237041090560%N.            (* 0x7FF8... *)
Definition num_one : number := 4607182418800017408%N.            (* 0x3FF0... *)

Definition num_is_zero (n : number) : bool :=
  N.eqb n num_pos_zero || N.eqb n num_neg_zero.

Definition num_is_nan (n : number) : bool :=
  N.eqb (N.land (N.shiftr n 52) 2047) 2047
  && negb (N.eqb (N.land n 4503599627370495) 0).

(** ** Values

    The JSON-shaped fragment of JS values: what a payload, a decoded carrier or
    an event record can be.  An object is its list of own properties in
    insertion order; an array its list of elements. *)

Inductive value : Type :=
| VUndefined
| VNull
| VBool (b : bool)
| VNum (n : number)
| VStr (s : jstring)
| VArr (xs : list value)
| VObj (fields : list (jstring * value)).

(** Truthiness ([ToBoolean]). *)
Definition truthy (v : value) : bool :=
  match v with
  | VUndefined | VNull => false
  | VBool b => b
  | VNum n => negb (num_is_zero n || num_is_nan n)
  | VStr s => match s with [] => false | _ => true end
  | VArr _ | VObj _ => true
  end.

(** [a || b] and [a && b] return one of their operands. *)
Definition js_or (a b : value) : value := if truthy a then a else b.
Definition js_and (a b : value) : value := if truthy a then b else a.

Fixpoint lookup (k : jstring) (fields : list (jstring * value)) : option value :=
  match fields with
  | [] => None
  | (k', v) :: rest => if jstr_eqb k k' then Some v else lookup k rest
  end.

(** Property read [v.k] for the property names the parsers use; none of them
    is inherited from a prototype, so only own properties of objects answer. *)
Definition get (v : value) (k : string) : value :=
  match v with
  | VObj fields => match lookup (js k) fields with Some x => x | None => VUndefined end
  | _ => VUndefined
  end.

Definition has_own (v : value) (k : string) : bool :=
  match v with
  | VObj fields => match lookup (js k) fields with Some _ => true | None => false end
  | _ => false
  end.

(** Writing a property: an existing key keeps its place, a new one goes last.
    This is what an object literal with a spread does key by key. *)
Fixpoint obj_set (k : jstring) (v : value) (fields : list (jstring * value))
  : list (jstring * value) :=
  match fields with
  | [] => [(k, v)]
  | (k', v') :: rest =>
      if jstr_eqb k k' then (k', v) :: rest else (k', v') :: obj_set k v rest
  end.

Definition obj_literal (props : list (jstring * value)) : value :=
  VObj (fold_left (fun acc kv => obj_set (fst kv) (snd kv) acc) props []).

Definition typeof_is_object (v : value) : bool :=
  match v with VNull | VArr _ | VObj _ => true | _ => false end.

Definition typeof_is_string (v : value) : bool :=
  match v with VStr _ => true | _ => false end.

Definition isArray (v : value) : bool :=
  match v with VArr _ => true | _ => false end.

(** [v === 'text']. *)
Definition str_is (v : value) (s : string) : bool :=
  match v with VStr t => jstr_eqb t (js s) | _ => false end.

(** [v == null]. *)
Definition is_nullish (v : value) : bool :=
  match v with VUndefined | VNull => true | _ => false end.

(** ** Completions

    A call either returns or throws.  The only exception that the parsers do
    not catch themselves is the TypeError of a failed conversion to a
    primitive. *)

Inductive error := TypeError.

Inductive completion (A : Type) : Type :=
| Normal (a : A)
| Abrupt (e : error).
Arguments Normal {A} a.
Arguments Abrupt {A} e.

Definition bind {A B} (c : completion A) (k : A -> completion B) : completion B :=
  match c with
  | Normal a => k a
  | Abrupt e => Abrupt e
  end.

Notation "x <- c ;; k" := (bind c (fun x => k))
  (at level 61, c at next level, right associativity).

(** [try { return c } catch (e) { return d }]. *)
Definition try_catch {A} (c : completion A) (d : A) : A :=
  match c with
  | Normal a => a
  | Abrupt _ => d
  end.

(** ** String primitives *)

(** WhiteSpace and LineTerminator code units, as [String.prototype.trim]
    removes them. *)
Definition is_js_space (c : code_unit) : bool :=
  ((9 <=? c) && (c <=? 13) || (c =? 32) || (c =? 160) || (c =? 5760)
   || (8192 <=? c) && (c <=? 8202) || (c =? 8232) || (c =? 8233)
   || (c =? 8239) || (c =? 8287) || (c =? 12288) || (c =? 65279))%N.

Fixpoint trim_start (s : jstring) : jstring :=
  match s with
  | c :: r => if is_js_space c then trim_start r else s
  | [] => []
  end.

Definition trim_end (s : jstring) : jstring := rev (trim_start (rev s)).

Definition trim (s : jstring) : jstring := trim_end (trim_start s).

Definition startsWith (s : jstring) (a : ascii) : bool :=
  match s with c :: _ => N.eqb c (ch a) | [] => false end.

Definition endsWith (s : jstring) (a : ascii) : bool :=
  match rev s with c :: _ => N.eqb c (ch a) | [] => false end.

(** [s.replace(/a/g, 'b')] for single characters. *)
Definition replace_all (a b : ascii) (s : jstring) : jstring :=
  map (fun c => if N.eqb c (ch a) then ch b else c) s.

(** [while (t.length % 4) t += '=']; three rounds always suffice. *)
Fixpoint pad_loop (fuel : nat) (t : jstring) : jstring :=
  match fuel with
  | O => t
  | S f => if Nat.eqb (length t mod 4) 0 then t else pad_loop f (t ++ [ch "="])
  end.

Definition pad4 (t : jstring) : jstring := pad_loop 3 t.

Definition hex_digit (n : N) : code_unit :=
  (if n <? 10 then 48 + n else 87 + n)%N.

(** ['%' + ('00' + code.toString(16)).slice(-2)]: the last two hexadecimal
    digits of the code. *)
Definition percent_byte (code : code_unit) : jstring :=
  [ch "%"; hex_digit ((code / 16) mod 16); hex_digit (code mod 16)].

Definition percent_encode (bin : jstring) : jstring := flat_map percent_byte bin.

(** [(t.match(/,/g) || []).length]. *)
Definition count_commas (t : jstring) : nat :=
  length (filter (fun c => N.eqb c (ch ",")) t).

(** [arr.slice(i, i + n)] for in-range, non-negative bounds. *)
Definition slice (A : Type) (l : list A) (i n : nat) : list A := firstn n (skipn i l).

(** ** The host

    The builtins the parsers call.  A builtin that can throw answers [None]
    when it does. *)

Class Host := {
  (** [JSON.parse] on a string; [None]: SyntaxError. *)
  JSON_parse : jstring -> option value;
  (** [JSON.stringify]; [None]: it throws, or returns undefined. *)
  JSON_stringify : value -> option jstring;
  (** [typeof atob === 'function']. *)
  atob_defined : bool;
  (** [atob]; [None]: InvalidCharacterError.  The answer is a binary string. *)
  atob : jstring -> option jstring;
  (** [typeof TextDecoder !== 'undefined'], and [new TextDecoder().decode]
      on the bytes of a Uint8Array (it never throws). *)
  TextDecoder_defined : bool;
  TextDecoder_decode : list N -> jstring;
  (** [decodeURIComponent]; [None]: URIError. *)
  decodeURIComponent : jstring -> option jstring;
  (** [typeof TextEncoder !== 'undefined'], and
      [new TextEncoder().encode(s).length]. *)
  TextEncoder_defined : bool;
  TextEncoder_length : jstring -> nat;
  (** [Number] on a string, and number to string. *)
  StringToNumber : jstring -> number;
  NumberToString : number -> jstring;
  (** The reading of [Date.now()] during the call. *)
  Date_now : number;
  (** [typeof Worker !== 'undefined']. *)
  Worker_defined : bool
}.

Section Conversions.
Context {H : Host}.

(** [ToString].  An object that has an own [toString] property cannot be
    converted: a JSON-shaped value is never callable, so the own property
    shadows [Object.prototype.toString] and [OrdinaryToPrimitive] finds no
    method that answers a primitive ([valueOf] answers the object itself). *)
Fixpoint ToString (v : value) : completion jstring :=
  match v with
  | VUndefined => Normal (js "undefined")
  | VNull => Normal (js "null")
  | VBool true => Normal (js "true")
  | VBool false => Normal (js "false")
  | VNum n => Normal (NumberToString n)
  | VStr s => Normal s
  | VObj fields =>
      match lookup (js "toString") fields with
      | Some _ => Abrupt TypeError
      | None => Normal (js "[object Object]")
      end
  | VArr xs =>
      (* Array.prototype.join: undefined and null elements print as empty *)
      (fix join (l : list value) : completion jstring :=
         match l with
         | [] => Normal []
         | x :: r =>
             s <- match x with
                  | VUndefined | VNull => Normal []
                  | _ => ToString x
                  end ;;
             match r with
             | [] => Normal s
             | _ => t <- join r ;; Normal (s ++ ch "," :: t)
             end
         end) xs
  end.

(** [Number(v)]. *)
Definition ToNumber (v : value) : completion number :=
  match v with
  | VUndefined => Normal num_NaN
  | VNull => Normal num_pos_zero
  | VBool true => Normal num_one
  | VBool false => Normal num_pos_zero
  | VNum n => Normal n
  | VStr s => Normal (StringToNumber s)
  | VArr _ | VObj _ => s <- ToString v ;; Normal (StringToNumber s)
  end.

(** [JSON.parse(v)] for any argument: the argument is converted to a string
    first.  [None]: it throws (either error). *)
Definition JSON_parse_value (v : value) : option value :=
  match ToString v with
  | Normal s => JSON_parse s
  | Abrupt _ => None
  end.

End Conversions.

(** ** Shared control structure *)

(** [arr.map(f)] where [f] may throw: the first throw ends the call. *)
Fixpoint mapM (A B : Type) (f : A -> completion B) (l : list A) : completion (list B) :=
  match l with
  | [] => Normal []
  | x :: r => y <- f x ;; ys <- mapM f r ;; Normal (y :: ys)
  end.

(** [arr.map(f).filter(Boolean)]. *)
Definition map_filter (f : value -> completion value) (l : list value)
  : completion (list value) :=
  es <- mapM f l ;; Normal (filter truthy es).

(** The inner loop of the chunked path:
    [for (j ...) { const ev = f(slice[j]); if (ev) out.push(ev) }]. *)
Fixpoint push_events (f : value -> completion value) (sl out : list value)
  : completion (list value) :=
  match sl with
  | [] => Normal out
  | x :: r =>
      ev <- f x ;;
      push_events f r (if truthy ev then out ++ [ev] else out)
  end.

(** The outer loop,
    [for (let i = 0; i < parsed.length; i += chunkSize) { ...; await tick }].
    Each round costs one unit of fuel; [None] means the fuel ran out before the
    loop condition failed. *)
Fixpoint chunk_loop (f : value -> completion value) (fuel : nat)
         (parsed : list value) (chunkSize i : nat) (out : list value)
  : option (completion (list value)) :=
  if i <? length parsed then
    match fuel with
    | O => None
    | S fuel' =>
        match push_events f (slice parsed i chunkSize) out with
        | Normal out' => chunk_loop f fuel' parsed chunkSize (i + chunkSize) out'
        | Abrupt e => Some (Abrupt e)
        end
    end
  else Some (Normal out).

(** The state in which an async call ends: its promise is fulfilled, rejected,
    or never settles. *)
Inductive promise (A : Type) : Type :=
| Fulfilled (a : A)
| Rejected (e : error)
| Pending.
Arguments Fulfilled {A} a.
Arguments Rejected {A} e.
Arguments Pending {A}.

(** [return c] at the end of an async function. *)
Definition settle {A} (c : completion A) : promise A :=
  match c with
  | Normal a => Fulfilled a
  | Abrupt e => Rejected e
  end.

Definition promise_map {A B} (f : A -> B) (p : promise A) : promise B :=
  match p with
  | Fulfilled a => Fulfilled (f a)
  | Rejected e => Rejected e
  | Pending => Pending
  end.

(** The chunked loop as the tail of an async function.  The loop runs at most
    [length parsed] rounds when it advances, so that much fuel decides it. *)
Definition run_chunks (f : value -> completion value) (parsed : list value)
           (chunkSize : nat) : promise (list value) :=
  match chunk_loop f (length parsed) parsed chunkSize 0 [] with
  | Some c => settle c
  | None => Pending
  end.

(** [/^[A-Za-z0-9\-_]+=*$/.test(t)]. *)
Definition is_b64url_char (c : code_unit) : bool :=
  ((65 <=? c) && (c <=? 90) || (97 <=? c) && (c <=? 122)
   || (48 <=? c) && (c <=? 57) || (c =? 45) || (c =? 95))%N.

Fixpoint skip_while (p : code_unit -> bool) (s : jstring) : jstring :=
  match s with
  | c :: r => if p c then skip_while p r else s
  | [] => []
  end.

Definition test_b64url (t : jstring) : bool :=
  match t with
  | [] => false
  | c :: _ => is_b64url_char c
              && forallb (fun d => N.eqb d (ch "=")) (skip_while is_b64url_char t)
  end.

Definition is_null (v : value) : bool :=
  match v with VNull => true | _ => false end.

Definition str (s : string) : value := VStr (js s).

(** The elements of an array. *)
Definition elements (v : value) : list value :=
  match v with VArr xs => xs | _ => [] end.

(** * src/utils/const.js *)

Module Const.
Section Parser.
Context {H : Host}.

Definition isLikelyBase64 (s : value) : bool :=
  match s with
  | VStr s =>
      let t := trim s in
      if length t <? 8 then false else test_b64url t
  | _ => false
  end.

Definition isLikelyJsonString (s : value) : bool :=
  match s with
  | VStr s => let t := trim s in startsWith t "{" || startsWith t "["
  | _ => false
  end.

Definition tryParseJsonSafe (s : value) : value :=
  match JSON_parse_value s with
  | Some v => v
  | None => VNull
  end.

(** [None]: decodeURIComponent throws. *)
Definition binaryStringToUtf8 (bin : jstring) : option jstring :=
  if TextDecoder_defined
  then Some (TextDecoder_decode (map (fun c => (c mod 256)%N) bin))
  else decodeURIComponent (percent_encode bin).

Definition tryDecodeBase64JsonSafe (b64 : value) : value :=
  match b64 with
  | VStr s =>
      match s with
      | [] => VNull
      | _ =>
          let t := pad4 (replace_all "_" "/" (replace_all "-" "+" s)) in
          if atob_defined then
            match atob t with
            | None => VNull                       (* outer catch *)
            | Some [] => VNull                    (* if (!bin) return null *)
            | Some bin =>
                match binaryStringToUtf8 bin with
                | Some txt => tryParseJsonSafe (VStr txt)
                | None => VNull                   (* inner catch *)
                end
            end
          else VNull
      end
  | _ => VNull
  end.

Definition tryNormalize (cand : value) : value :=
  if is_nullish cand then VNull
  else if typeof_is_object cand then cand
  else if negb (typeof_is_string cand) then VNull
  else if isLikelyJsonString cand then
    let p := tryParseJsonSafe cand in
    if truthy p then p
    else
      let p2 := tryDecodeBase64JsonSafe cand in
      if truthy p2 then p2 else VNull
  else if isLikelyBase64 cand then
    let p := tryDecodeBase64JsonSafe cand in
    if truthy p then p else tryParseJsonSafe cand
  else tryParseJsonSafe cand.

(** The [common] object of [parseSnowplowEvent]; [Number(...)] is the one
    call in it that can throw. *)
Definition common (ev : value) : completion (list (jstring * value)) :=
  ts <- (if truthy (get ev "dtm") then ToNumber (get ev "dtm")
         else if truthy (get ev "timestamp") then ToNumber (get ev "timestamp")
         else Normal Date_now) ;;
  Normal [ (js "eid", js_or (get ev "eid") VNull);
           (js "ts", VNum ts);
           (js "vid", js_or (get ev "vid") VNull);
           (js "sid", js_or (get ev "sid") VNull);
           (js "p", js_or (get ev "p") VNull);
           (js "url", js_or (js_or (get ev "url") (get ev "pageUrl")) VNull);
           (js "raw", ev) ].

(** The order in which the three carriers are tried. *)
Definition carrier_order (ev encodeBase64 : value) : list value :=
  let uePx := get ev "ue_px" in
  let uePr := get ev "ue_pr" in
  let unstruct := js_or (js_or (get ev "unstruct_event") (get ev "unstruct")) (get ev "ue") in
  match encodeBase64 with
  | VBool true => [uePx; uePr; unstruct]
  | _ =>
      if truthy encodeBase64 (* !encodeBase64 === false *) then [uePr; uePx; unstruct]
      else if truthy uePr && isLikelyJsonString uePr then [uePr; uePx; unstruct]
      else if truthy uePx && isLikelyBase64 uePx then [uePx; uePr; unstruct]
      else [uePr; uePx; unstruct]
  end.

(** [for (i ...) { normalized = tryNormalize(ordered[i]); if (normalized) break }],
    started with [normalized]. *)
Fixpoint try_carriers (ordered : list value) (normalized : value) : value :=
  match ordered with
  | [] => normalized
  | c :: rest =>
      let n := tryNormalize c in
      if truthy n then n else try_carriers rest n
  end.

(** The carrier of a self-describing event after the loop and the last resort
    on [unstruct]. *)
Definition decode_carrier (ev encodeBase64 : value) : value :=
  let unstruct := js_or (js_or (get ev "unstruct_event") (get ev "unstruct")) (get ev "ue") in
  let normalized := try_carriers (carrier_order ev encodeBase64) VNull in
  if negb (truthy normalized) && truthy unstruct
  then js_or (tryNormalize unstruct) VNull
  else normalized.

(** Schema and payload of a decoded carrier, with the one extra unwrapping. *)
Definition unwrap_payload (normalized : value) : value :=
  let payload :=
    js_or (js_or (get normalized "data")
                 (js_and (get normalized "self") (get (get normalized "self") "data")))
          normalized in
  if truthy payload && typeof_is_object payload
     && negb (match get payload "data" with VUndefined => true | _ => false end)
     && typeof_is_object (get payload "data")
  then get payload "data"
  else payload.

Definition carrier_schema (normalized : value) : value :=
  js_or (js_or (get normalized "schema")
               (js_and (get normalized "self") (get (get normalized "self") "schema")))
        VNull.

(** The four branches of [parseSnowplowEvent], in the order they are tested. *)
Inductive shape := Structured | SelfDescribing | PageView | Fallback.

Definition shape_of (ev : value) : shape :=
  if str_is (get ev "e") "se" || str_is (get ev "e") "structured_event" then Structured
  else if str_is (get ev "e") "ue" || str_is (get ev "e") "unstruct" then SelfDescribing
  else if str_is (get ev "event") "page_view" || str_is (get ev "e") "pv" then PageView
  else Fallback.

Definition structured_event (ev : value) (cm : list (jstring * value)) : value :=
  let se_pr :=
    if typeof_is_string (get ev "se_pr")
    then js_or (tryParseJsonSafe (get ev "se_pr")) (get ev "se_pr")
    else get ev "se_pr" in
  obj_literal
    ([ (js "eventType", str "structured_event");
       (js "category", js_or (js_or (get ev "se_ca") (get ev "category")) VNull);
       (js "action", js_or (js_or (get ev "se_ac") (get ev "action")) VNull);
       (js "label", js_or (get ev "se_la") VNull);
       (js "property", js_or se_pr VNull) ] ++ cm).

Definition self_describing_event (ev encodeBase64 : value) (cm : list (jstring * value))
  : value :=
  let normalized := decode_carrier ev encodeBase64 in
  let schema := if truthy normalized then carrier_schema normalized else VNull in
  let payload := if truthy normalized then unwrap_payload normalized else ev in
  obj_literal
    ([ (js "eventType", str "unstruct");
       (js "schema", schema);
       (js "payload", payload) ] ++ cm).

Definition page_view_event (ev : value) (cm : list (jstring * value)) : value :=
  obj_literal
    ([ (js "eventType", str "page_view");
       (js "title", js_or (js_or (get ev "pageTitle") (get ev "dt")) VNull);
       (js "url", js_or (js_or (get ev "pageUrl") (get ev "url")) VNull);
       (js "referrer", js_or (js_or (get ev "refr") (get ev "referrer")) VNull) ] ++ cm).

Definition fallback_event (ev : value) (cm : list (jstring * value)) : value :=
  obj_literal
    ([ (js "eventType", js_or (js_or (get ev "e") (get ev "event")) (str "unknown"));
       (js "payload", ev) ] ++ cm).

Definition parseSnowplowEvent (ev encodeBase64 : value) : completion value :=
  if negb (truthy ev) || negb (typeof_is_object ev) then Normal VNull
  else
    cm <- common ev ;;
    Normal (match shape_of ev with
            | Structured => structured_event ev cm
            | SelfDescribing => self_describing_event ev encodeBase64 cm
            | PageView => page_view_event ev cm
            | Fallback => fallback_event ev cm
            end).

Definition raw_text (t : jstring) : value :=
  obj_literal [ (js "eventType", str "raw_text"); (js "payload", VStr t) ].

(** [parseSync] from the point where [parsed] is no longer a string to decode. *)
Definition parse_resolved (parsed encodeBase64 : value) : completion (list value) :=
  if truthy parsed && typeof_is_object parsed then
    if truthy (get parsed "schema") && isArray (get parsed "data") then
      map_filter (fun ev => parseSnowplowEvent ev encodeBase64) (elements (get parsed "data"))
    else if isArray parsed then
      map_filter (fun ev => parseSnowplowEvent ev encodeBase64) (elements parsed)
    else if truthy (get parsed "unstruct_event") then
      let ud := get parsed "unstruct_event" in
      let normalized :=
        js_or (js_or (js_or (get ud "data")
                            (tryDecodeBase64JsonSafe (js_or (get parsed "ue_px") (VStr []))))
                     (tryParseJsonSafe (js_or (get parsed "ue_pr") (VStr []))))
              ud in
      let schema :=
        js_or (js_or (get ud "schema") (js_and normalized (get normalized "schema"))) VNull in
      let payload :=
        js_or (js_and normalized (js_or (get normalized "data") normalized)) ud in
      Normal [ obj_literal
        [ (js "eventType", str "unstruct");
          (js "schema", schema);
          (js "payload", payload);
          (js "raw", parsed) ] ]
    else
      ev <- parseSnowplowEvent parsed encodeBase64 ;; Normal [ev]
  else
    Normal [ obj_literal [ (js "eventType", str "unknown"); (js "payload", parsed) ] ].

Definition looks_like_json (t : jstring) : bool :=
  (startsWith t "{" && endsWith t "}") || (startsWith t "[" && endsWith t "]").

Definition parseSync (bodyText encodeBase64 : value) : completion (list value) :=
  if is_nullish bodyText then Normal []
  else
    match bodyText with
    | VStr s =>
        let t := trim s in
        if looks_like_json t then
          let p := tryParseJsonSafe (VStr t) in
          if negb (is_null p) then parse_resolved p encodeBase64
          else
            let dec := tryDecodeBase64JsonSafe (VStr t) in
            if negb (is_null dec) then parse_resolved dec encodeBase64
            else Normal [raw_text t]
        else
          let dec := tryDecodeBase64JsonSafe (VStr t) in
          if negb (is_null dec) then parse_resolved dec encodeBase64
          else
            let p2 := tryParseJsonSafe (VStr t) in
            if negb (is_null p2) then parse_resolved p2 encodeBase64
            else Normal [raw_text t]
    | _ => parse_resolved bodyText encodeBase64
    end.

Definition chunkSize : nat := 50.

(** The async entry point. *)
Definition transformSnowplowPayload (bodyText encodeBase64 : value)
  : promise (list value) :=
  if is_nullish bodyText then Fulfilled []
  else
    let top :=
      if typeof_is_string bodyText then
        let maybe := tryParseJsonSafe bodyText in
        if negb (is_null maybe) then maybe
        else if isLikelyBase64 bodyText then
          let dec := tryDecodeBase64JsonSafe bodyText in
          if negb (is_null dec) then dec else bodyText
        else bodyText
      else bodyText in
    if isArray top && (chunkSize <? length (elements top)) then
      run_chunks (fun ev => parseSnowplowEvent ev encodeBase64) (elements top) chunkSize
    else settle (parseSync top encodeBase64).

End Parser.
End Const.

(** * src/utils/parseWithWebWorker.js *)

Module WebWorker.

Record options := {
  useWorker : bool;
  workerThresholdEvents : Z;
  workerThresholdBytes : Z;
  chunkSize : nat;
  workerTimeoutMs : Z;
  debug : bool
}.

Definition DEFAULTS : options := {|
  useWorker := true;
  workerThresholdEvents := 100;
  workerThresholdBytes := 50 * 1024;
  chunkSize := 50;
  workerTimeoutMs := 3000;
  debug := false
|}.

(** What the platform does to one worker session. *)
Inductive creation :=
| CreateThrows        (* Blob, createObjectURL or new Worker throws *)
| PostMessageThrows   (* handlers and timer are in place, postMessage throws *)
| Created.

Inductive worker_event :=
| OnMessage (d : value)
| OnError.

(** The state of one [parseWithWorker] call. *)
Record session := {
  terminated : bool;
  timer_cleared : bool;
  worker_stopped : bool;
  url_revoked : bool;
  result : promise value;
  settled_at : option Z;
  resolve_calls : nat
}.

Section Parser.
Context {H : Host}.

(** A call of [atob] by name: a ReferenceError where there is none. *)
Definition call_atob (t : jstring) : option jstring :=
  if atob_defined then atob t else None.

Definition base64DecodeToString (b64 : value) : value :=
  if negb (truthy b64) then VNull
  else
    match b64 with
    | VStr s =>
        let t := pad4 (replace_all "_" "/" (replace_all "-" "+" s)) in
        match call_atob t with
        | Some bin =>
            match decodeURIComponent (percent_encode bin) with
            | Some txt => VStr txt
            | None => VStr bin                    (* inner catch: plain atob result *)
            end
        | None => VNull                           (* atob throws in both places *)
        end
    | _ => VNull                                  (* b64.replace is not a function *)
    end.

Definition tryDecodeBase64Json (b64 : value) : value :=
  let txt := base64DecodeToString b64 in
  if negb (truthy txt) then VNull
  else match JSON_parse_value txt with Some v => v | None => VNull end.

Definition tryParseJSONSafe (s : value) : value :=
  match JSON_parse_value s with
  | Some v => v
  | None => VNull
  end.

Definition common (ev : value) : completion (list (jstring * value)) :=
  ts <- (if truthy (get ev "dtm") then ToNumber (get ev "dtm")
         else if truthy (get ev "timestamp") then ToNumber (get ev "timestamp")
         else Normal Date_now) ;;
  Normal [ (js "eid", js_or (get ev "eid") VNull);
           (js "ts", VNum ts);
           (js "vid", js_or (get ev "vid") VNull);
           (js "sid", js_or (get ev "sid") VNull);
           (js "p", js_or (get ev "p") VNull);
           (js "url", js_or (js_or (get ev "url") (get ev "pageUrl")) VNull);
           (js "raw", ev) ].

Definition parseSnowplowEvent (ev : value) : completion value :=
  if negb (truthy ev) || negb (typeof_is_object ev) then Normal VNull
  else
    cm <- common ev ;;
    if str_is (get ev "e") "se" || str_is (get ev "e") "structured_event" then
      let se_pr :=
        match get ev "se_pr" with
        | VStr s => match JSON_parse s with Some v => v | None => VStr s end
        | other => other
        end in
      Normal (obj_literal
        ([ (js "eventType", str "structured_event");
           (js "category", js_or (js_or (get ev "se_ca") (get ev "category")) VNull);
           (js "action", js_or (js_or (get ev "se_ac") (get ev "action")) VNull);
           (js "label", js_or (get ev "se_la") VNull);
           (js "property", js_or se_pr VNull) ] ++ cm))
    else if str_is (get ev "e") "ue" || str_is (get ev "e") "unstruct"
            || str_is (get ev "e") "ue_px" || truthy (get ev "unstruct_event") then
      let ue_px :=
        js_or (js_or (js_or (get ev "ue_px") (get ev "unstruct_event")) (get ev "unstruct")) VNull in
      let decoded :=
        if typeof_is_string ue_px then js_or (tryDecodeBase64Json ue_px) (tryParseJSONSafe ue_px)
        else if typeof_is_object ue_px then ue_px
        else VNull in
      let schema :=
        if truthy decoded
        then js_or (js_or (get decoded "schema")
                          (js_and (get decoded "self") (get (get decoded "self") "schema")))
                   VNull
        else js_or (get ev "schema") VNull in
      let data :=
        if truthy decoded
        then js_or (js_or (get decoded "data")
                          (js_and (get decoded "self") (get (get decoded "self") "data")))
                   decoded
        else js_or (js_or (get ev "data") (get ev "payload")) ev in
      Normal (obj_literal
        ([ (js "eventType", str "unstruct");
           (js "schema", schema);
           (js "payload", data) ] ++ cm))
    else if str_is (get ev "event") "page_view" || str_is (get ev "e") "pv" then
      Normal (obj_literal
        ([ (js "eventType", str "page_view");
           (js "title", js_or (js_or (get ev "pageTitle") (get ev "dt")) VNull);
           (js "url", js_or (js_or (get ev "pageUrl") (get ev "url")) VNull);
           (js "referrer", js_or (js_or (get ev "refr") (get ev "referrer")) VNull) ] ++ cm))
    else
      Normal (obj_literal
        ([ (js "eventType", js_or (js_or (get ev "e") (get ev "event")) (str "unknown"));
           (js "payload", ev) ] ++ cm)).

Definition raw_text (t : jstring) : value :=
  obj_literal [ (js "eventType", str "raw_text"); (js "payload", VStr t) ].

Definition looks_like_json (t : jstring) : bool :=
  (startsWith t "{" && endsWith t "}") || (startsWith t "[" && endsWith t "]").

(** [parseSync] from the point where [parsed] is no longer a string to decode. *)
Definition parse_resolved (parsed : value) : completion (list value) :=
  if truthy parsed && typeof_is_object parsed then
    if truthy (get parsed "schema") && isArray (get parsed "data") then
      map_filter parseSnowplowEvent (elements (get parsed "data"))
    else if isArray parsed then
      map_filter parseSnowplowEvent (elements parsed)
    else if truthy (get parsed "unstruct_event") then
      let ud := get parsed "unstruct_event" in
      let decoded :=
        js_or (get ud "data")
              (tryDecodeBase64Json
                 (js_or (get parsed "ue_px") (js_and (get ud "data") (get ud "data")))) in
      Normal [ obj_literal
        [ (js "eventType", str "unstruct");
          (js "schema", js_or (get ud "schema") VNull);
          (js "payload", js_or (js_or decoded (get ud "data")) ud);
          (js "raw", parsed) ] ]
    else
      ev <- parseSnowplowEvent parsed ;; Normal [ev]
  else
    Normal [ obj_literal [ (js "eventType", str "unknown"); (js "payload", parsed) ] ].

Definition parseSync (bodyText : value) : completion (list value) :=
  if negb (truthy bodyText) then Normal []
  else
    match bodyText with
    | VStr s =>
        let t := trim s in
        if looks_like_json t then
          match JSON_parse t with
          | Some p => parse_resolved p
          | None =>
              let decoded := tryDecodeBase64Json (VStr t) in
              if truthy decoded then parse_resolved decoded
              else Normal [raw_text t]
          end
        else
          let decoded := tryDecodeBase64Json (VStr t) in
          if truthy decoded then parse_resolved decoded
          else Normal [raw_text t]
    | _ => parse_resolved bodyText
    end.

Definition estimateUtf8Bytes (s : jstring) : Z :=
  if TextEncoder_defined then Z.of_nat (TextEncoder_length s)
  else (3 * Z.of_nat (length s) + 1) / 2.          (* Math.ceil(s * 1.5) *)

Definition parseInChunks (bodyText : value) (opts : options) : promise (list value) :=
  let chunked (parsed : value) :=
    if isArray parsed && (chunkSize opts <? length (elements parsed)) then
      run_chunks parseSnowplowEvent (elements parsed) (chunkSize opts)
    else settle (parseSync parsed) in
  match bodyText with
  | VStr s =>
      match JSON_parse s with
      | Some p => chunked p
      | None =>
          let dec := tryDecodeBase64Json bodyText in
          if truthy dec then chunked dec
          else settle (parseSync bodyText)
      end
  | _ => chunked bodyText
  end.

(** *** The worker session *)

Definition fresh : session := {|
  terminated := false; timer_cleared := false; worker_stopped := false;
  url_revoked := false; result := Pending; settled_at := None; resolve_calls := 0
|}.

(** [resolve(v)]: only the first call settles the promise. *)
Definition resolve (now : Z) (v : value) (st : session) : session := {|
  terminated := terminated st; timer_cleared := timer_cleared st;
  worker_stopped := worker_stopped st; url_revoked := url_revoked st;
  result := match result st with Pending => Fulfilled v | r => r end;
  settled_at := match result st with Pending => Some now | _ => settled_at st end;
  resolve_calls := S (resolve_calls st)
|}.

(** A throw out of the promise executor rejects the promise. *)
Definition reject (now : Z) (e : error) (st : session) : session := {|
  terminated := terminated st; timer_cleared := timer_cleared st;
  worker_stopped := worker_stopped st; url_revoked := url_revoked st;
  result := match result st with Pending => Rejected e | r => r end;
  settled_at := match result st with Pending => Some now | _ => settled_at st end;
  resolve_calls := resolve_calls st
|}.

Definition set_terminated (st : session) : session := {|
  terminated := true; timer_cleared := timer_cleared st;
  worker_stopped := worker_stopped st; url_revoked := url_revoked st;
  result := result st; settled_at := settled_at st; resolve_calls := resolve_calls st
|}.

(** [cleanup()]: clearTimeout, worker.terminate, URL.revokeObjectURL. *)
Definition cleanup (st : session) : session := {|
  terminated := terminated st; timer_cleared := true;
  worker_stopped := true; url_revoked := true;
  result := result st; settled_at := settled_at st; resolve_calls := resolve_calls st
|}.

Definition terminate_worker (st : session) : session := {|
  terminated := terminated st; timer_cleared := timer_cleared st;
  worker_stopped := true; url_revoked := url_revoked st;
  result := result st; settled_at := settled_at st; resolve_calls := resolve_calls st
|}.

(** [resolve(parseSync(bodyText))] inside an event handler or timer callback:
    when [parseSync] throws, the callback ends there and [resolve] is not
    called. *)
Definition resolve_fallback (now : Z) (bodyText : value) (st : session) : session :=
  match parseSync bodyText with
  | Normal r => resolve now (VArr r) st
  | Abrupt _ => st
  end.

Definition onmessage (bodyText : value) (now : Z) (d : value) (st : session) : session :=
  if terminated st then st
  else
    let st := cleanup (set_terminated st) in
    if truthy (js_and d (get d "ok")) then resolve now (get d "result") st
    else resolve_fallback now bodyText st.

Definition onerror (bodyText : value) (now : Z) (st : session) : session :=
  if terminated st then st
  else resolve_fallback now bodyText (cleanup (set_terminated st)).

(** The timer callback; a cleared timer does not fire. *)
Definition ontimeout (bodyText : value) (now : Z) (st : session) : session :=
  if timer_cleared st then st
  else if terminated st then st
  else resolve_fallback now bodyText (terminate_worker (set_terminated st)).

Definition on_event (bodyText : value) (te : Z * worker_event) (st : session) : session :=
  match snd te with
  | OnMessage d => onmessage bodyText (fst te) d st
  | OnError => onerror bodyText (fst te) st
  end.

(** The event loop after the executor returned: worker events that arrive
    before the deadline run first, then the timer callback, then the rest. *)
Fixpoint deliver (bodyText : value) (deadline : Z) (replies : list (Z * worker_event))
         (st : session) : session :=
  match replies with
  | [] => ontimeout bodyText deadline st
  | te :: rest =>
      if (fst te <? deadline)%Z then deliver bodyText deadline rest (on_event bodyText te st)
      else fold_left (fun s x => on_event bodyText x s) replies
                     (ontimeout bodyText deadline st)
  end.

(** The [catch] of the executor: [resolve(parseSync(bodyText))], where a throw
    rejects the promise. *)
Definition executor_catch (bodyText : value) (st : session) : session :=
  match parseSync bodyText with
  | Normal r => resolve 0 (VArr r) st
  | Abrupt e => reject 0 e st
  end.

Definition parseWithWorker (bodyText : value) (opts : options)
           (c : creation) (replies : list (Z * worker_event)) : session :=
  match c with
  | CreateThrows => executor_catch bodyText fresh
  | PostMessageThrows =>
      deliver bodyText (workerTimeoutMs opts) replies (executor_catch bodyText fresh)
  | Created => deliver bodyText (workerTimeoutMs opts) replies fresh
  end.

(** *** The entry point *)

Definition stringify_bytes (v : value) : Z :=
  match JSON_stringify v with
  | Some s => estimateUtf8Bytes s
  | None => 0
  end.

Definition estimatedBytes (bodyText : value) : Z :=
  match bodyText with
  | VStr s => estimateUtf8Bytes s
  | VArr _ => stringify_bytes bodyText
  | _ => if typeof_is_object bodyText then stringify_bytes bodyText else 0
  end.

Definition topLevelCount (bodyText : value) : Z :=
  match bodyText with
  | VStr s =>
      let t := trim s in
      if startsWith t "[" then Z.of_nat (count_commas t) + 1 else 0
  | VArr xs => Z.of_nat (length xs)
  | _ =>
      if typeof_is_object bodyText
         && truthy (get bodyText "data") && isArray (get bodyText "data")
      then Z.of_nat (length (elements (get bodyText "data")))
      else 0
  end.

Definition shouldUseWorker (opts : options) (bodyText : value) : bool :=
  useWorker opts
  && ((negb (topLevelCount bodyText =? 0)%Z
       && (workerThresholdEvents opts <=? topLevelCount bodyText)%Z)
      || (negb (estimatedBytes bodyText =? 0)%Z
          && (workerThresholdBytes opts <=? estimatedBytes bodyText)%Z)).

Inductive path := Bail | Background | Foreground.

(** Where [transformSnowplowPayload] sends a payload. *)
Definition dispatch (opts : options) (bodyText : value) : path :=
  if negb (truthy bodyText) then Bail
  else if shouldUseWorker opts bodyText && Worker_defined then Background
  else Foreground.

Definition transformSnowplowPayload (bodyText : value) (opts : options)
           (c : creation) (replies : list (Z * worker_event)) : promise value :=
  match dispatch opts bodyText with
  | Bail => Fulfilled (VArr [])
  | Background => result (parseWithWorker bodyText opts c replies)
  | Foreground => promise_map VArr (parseInChunks bodyText opts)
  end.

End Parser.
End WebWorker.

(** * src/utils/transformSnowplowPayload.js

    The parser that [useCustomFetch] imports: one argument, no [encodeBase64]
    option, no chunking. *)

Module SnowplowParser.

(** ** [escape] (ECMAScript B.2.1.1) *)

Definition upper_hex_digit (n : N) : code_unit :=
  (if n <? 10 then 48 + n else 55 + n)%N.

(** Letters, digits and [@*_+-./] are left as they are. *)
Definition escape_unreserved (c : code_unit) : bool :=
  ((65 <=? c) && (c <=? 90) || (97 <=? c) && (c <=? 122) || (48 <=? c) && (c <=? 57)
   || (c =? 64) || (c =? 42) || (c =? 95) || (c =? 43) || (c =? 45) || (c =? 46)
   || (c =? 47))%N.

Definition escape_unit (c : code_unit) : jstring :=
  if escape_unreserved c then [c]
  else if (c <? 256)%N then
    [ch "%"; upper_hex_digit (c / 16); upper_hex_digit (c mod 16)]
  else
    [ch "%"; ch "u"; upper_hex_digit ((c / 4096) mod 16);
     upper_hex_digit ((c / 256) mod 16); upper_hex_digit ((c / 16) mod 16);
     upper_hex_digit (c mod 16)].

Definition escape (s : jstring) : jstring := flat_map escape_unit s.

Section Parser.
Context {H : Host}.

(** A string is translated, padded and decoded; when the UTF-8 step throws,
    the [catch] answers the plain [atob] result of the padded text.  A truthy
    value that is not a string has no [replace]: the [catch] runs [atob] on the
    value itself, which converts it to a string. *)
Definition base64DecodeToString (b64 : value) : value :=
  if negb (truthy b64) then VNull
  else
    match b64 with
    | VStr s =>
        let t := pad4 (replace_all "_" "/" (replace_all "-" "+" s)) in
        match WebWorker.call_atob t with
        | Some bin =>
            match decodeURIComponent (escape bin) with
            | Some txt => VStr txt
            | None => VStr bin
            end
        | None => VNull                           (* atob throws in both places *)
        end
    | _ =>
        match ToString b64 with
        | Normal t =>
            match WebWorker.call_atob t with
            | Some bin => VStr bin
            | None => VNull
            end
        | Abrupt _ => VNull
        end
    end.

Definition tryDecodeBase64Json (b64 : value) : value :=
  let txt := base64DecodeToString b64 in
  if negb (truthy txt) then VNull
  else match JSON_parse_value txt with Some v => v | None => VNull end.

Definition common (ev : value) : completion (list (jstring * value)) :=
  ts <- (if truthy (get ev "dtm") then ToNumber (get ev "dtm")
         else if truthy (get ev "timestamp") then ToNumber (get ev "timestamp")
         else Normal Date_now) ;;
  Normal [ (js "eid", js_or (get ev "eid") VNull);
           (js "ts", VNum ts);
           (js "vid", js_or (get ev "vid") VNull);
           (js "sid", js_or (get ev "sid") VNull);
           (js "p", js_or (get ev "p") VNull);
           (js "url", js_or (js_or (get ev "url") (get ev "pageUrl")) VNull);
           (js "raw", ev) ].

(** [a + '/' + b]: both operands are converted to strings, left to right. *)
Definition concat_slash (a b : value) : completion value :=
  sa <- ToString a ;;
  sb <- ToString b ;;
  Normal (VStr (sa ++ ch "/" :: sb)).

Definition parseSnowplowEvent (ev : value) : completion value :=
  if negb (truthy ev) || negb (typeof_is_object ev) then Normal VNull
  else
    cm <- common ev ;;
    if str_is (get ev "e") "se" || str_is (get ev "e") "structured_event" then
      let se_pr :=
        match get ev "se_pr" with
        | VStr s => match JSON_parse s with Some v => v | None => VStr s end
        | other => other
        end in
      Normal (obj_literal
        ([ (js "eventType", str "structured_event");
           (js "category", js_or (js_or (get ev "se_ca") (get ev "category")) VNull);
           (js "action", js_or (js_or (get ev "se_ac") (get ev "action")) VNull);
           (js "label", js_or (js_or (get ev "se_la") (get ev "se_la")) VNull);
           (js "property", js_or (js_or se_pr (get ev "se_pr")) (get ev "se_pr")) ]
         ++ cm))
    else if str_is (get ev "e") "ue" || str_is (get ev "e") "unstruct" then
      let decoded :=
        js_or (js_or (tryDecodeBase64Json (get ev "ue_px"))
                     (tryDecodeBase64Json (get ev "unstruct_event")))
              VNull in
      if truthy decoded && truthy (get decoded "self") then
        schema <-
          (if truthy (get decoded "schema") then Normal (get decoded "schema")
           else
             named <- (if truthy (get decoded "self")
                       then concat_slash (get (get decoded "self") "vendor")
                                         (get (get decoded "self") "name")
                       else Normal (get decoded "self")) ;;
             Normal (js_or named VNull)) ;;
        let data :=
          js_or (js_or (get decoded "data")
                       (js_and (get decoded "self") (get (get decoded "self") "data")))
                decoded in
        Normal (obj_literal
          ([ (js "eventType", str "unstruct");
             (js "schema", schema);
             (js "payload", data) ] ++ cm))
      else
        match JSON_parse_value (get ev "ue_px") with
        | Some maybe =>
            Normal (obj_literal
              ([ (js "eventType", str "unstruct"); (js "payload", maybe) ] ++ cm))
        | None =>
            Normal (obj_literal
              ([ (js "eventType", str "unstruct"); (js "payload", ev) ] ++ cm))
        end
    else if str_is (get ev "event") "page_view" || str_is (get ev "e") "pv" then
      Normal (obj_literal
        ([ (js "eventType", str "page_view");
           (js "title", js_or (js_or (get ev "pageTitle") (get ev "dt")) VNull);
           (js "url", js_or (js_or (get ev "pageUrl") (get ev "url")) VNull);
           (js "referrer", js_or (js_or (get ev "refr") (get ev "referrer")) VNull) ]
         ++ cm))
    else
      Normal (obj_literal
        ([ (js "eventType", js_or (js_or (get ev "e") (get ev "event")) (str "unknown"));
           (js "payload", ev) ] ++ cm)).

(** Steps 2 to 4 and the fall-back of [transformSnowplowPayload], on the
    parsed payload. *)
Definition parse_resolved (parsed : value) : completion (list value) :=
  if truthy parsed && truthy (get parsed "schema") && isArray (get parsed "data") then
    map_filter parseSnowplowEvent (elements (get parsed "data"))
  else if isArray parsed then
    map_filter parseSnowplowEvent (elements parsed)
  else if truthy parsed && truthy (get parsed "unstruct_event") then
    let ud := get parsed "unstruct_event" in
    let decoded :=
      js_or (get ud "data")
            (tryDecodeBase64Json (js_or (get parsed "ue_px") (get ud "data"))) in
    Normal [ obj_literal
      [ (js "eventType", str "unstruct");
        (js "schema", get ud "schema");
        (js "payload", js_or decoded (get ud "data"));
        (js "raw", parsed) ] ]
  else
    Normal [ obj_literal [ (js "eventType", str "unknown"); (js "payload", parsed) ] ].

Definition raw_text (parsed : value) : value :=
  obj_literal [ (js "eventType", str "raw_text"); (js "payload", parsed) ].

(** The async entry point.  When [JSON.parse] of a string throws, the string
    is decoded as base64 and the answer, a string or null, is given to
    [JSON.parse]; only a throw there yields the raw text. *)
Definition transformSnowplowPayload (bodyText : value) : promise (list value) :=
  if negb (truthy bodyText) then Fulfilled []
  else
    match bodyText with
    | VStr s =>
        match JSON_parse s with
        | Some parsed => settle (parse_resolved parsed)
        | None =>
            match JSON_parse_value (base64DecodeToString bodyText) with
            | Some parsed => settle (parse_resolved parsed)
            | None => Fulfilled [raw_text bodyText]
            end
        end
    | _ => settle (parse_resolved bodyText)
    end.

End Parser.
End SnowplowParser.

(** * src/utils/errorHandler.js

    The filter in front of every error report: a global rate window and a
    per-key de-duplication.  The module state is explicit; a time is a reading
    of [Date.now()], in milliseconds. *)

Module ErrorHandler.

Definition ERROR_DEDUP_MS : Z := 60 * 1000.
Definition maxPerMinute : Z := 300.

(** [recentErrors] is a Map: its entries are kept in insertion order. *)
Record state := {
  recentErrors : list (jstring * Z);
  errorCountWindowStart : Z;
  errorCountInWindow : Z
}.

(** The state when the module is loaded at time [t0]. *)
Definition initial (t0 : Z) : state := {|
  recentErrors := []; errorCountWindowStart := t0; errorCountInWindow := 0
|}.

Fixpoint map_get (k : jstring) (m : list (jstring * Z)) : option Z :=
  match m with
  | [] => None
  | (k', v) :: rest => if jstr_eqb k k' then Some v else map_get k rest
  end.

(** [Map.prototype.set]: an existing key keeps its place, a new key goes to
    the end. *)
Fixpoint map_set (k : jstring) (v : Z) (m : list (jstring * Z)) : list (jstring * Z) :=
  match m with
  | [] => [(k, v)]
  | (k', v') :: rest =>
      if jstr_eqb k k' then (k', v) :: rest else (k', v') :: map_set k v rest
  end.

Definition map_delete (k : jstring) (m : list (jstring * Z)) : list (jstring * Z) :=
  filter (fun kv => negb (jstr_eqb k (fst kv))) m.

(** [Array.from(recentErrors.keys()).slice(0, 100).forEach(k => delete k)]. *)
Definition prune (m : list (jstring * Z)) : list (jstring * Z) :=
  fold_left (fun acc k => map_delete k acc) (firstn 100 (map fst m)) m.

Definition shouldSendError (key : jstring) (now : Z) (st : state) : bool * state :=
  let fresh_window := (60000 <? now - errorCountWindowStart st)%Z in
  let start := if fresh_window then now else errorCountWindowStart st in
  let count := ((if fresh_window then 0 else errorCountInWindow st) + 1)%Z in
  if (maxPerMinute <? count)%Z then
    (false, {| recentErrors := recentErrors st;
               errorCountWindowStart := start; errorCountInWindow := count |})
  else
    let duplicate :=
      match map_get key (recentErrors st) with
      | Some last => negb (last =? 0)%Z && (now - last <? ERROR_DEDUP_MS)%Z
      | None => false
      end in
    if duplicate then
      (false, {| recentErrors := recentErrors st;
                 errorCountWindowStart := start; errorCountInWindow := count |})
    else
      let recent := map_set key now (recentErrors st) in
      (true, {| recentErrors := if 1000 <? length recent then prune recent else recent;
                errorCountWindowStart := start; errorCountInWindow := count |}).

(** A sequence of calls [(key, now)], with the answers in order. *)
Fixpoint run (calls : list (jstring * Z)) (st : state) : list bool * state :=
  match calls with
  | [] => ([], st)
  | (key, now) :: rest =>
      let (b, st1) := shouldSendError key now st in
      let (bs, st2) := run rest st1 in
      (b :: bs, st2)
  end.

End ErrorHandler.

(** * src/utils/const.js, the request id and the outbound record

    The browser is explicit: the item of [sessionStorage] under ['REQUEST_ID']
    is threaded through the calls, the answer of the next [uuidv4()] is an
    input, and the page gives [window.location.href], [document.title] and
    [document.referrer]. *)

Module Outbound.

Record page := {
  href : jstring;
  title : jstring;
  referrer : jstring
}.

(** [s.split(c)] for a separator of one character: never empty. *)
Fixpoint split (sep : ascii) (s : jstring) : list jstring :=
  match s with
  | [] => [[]]
  | c :: r =>
      if N.eqb c (ch sep) then [] :: split sep r
      else match split sep r with
           | h :: t => (c :: h) :: t
           | [] => [[c]]
           end
  end.

(** [getRequestId()]: the stored id when there is a non-empty one, else a new
    id, which is stored. *)
Definition getRequestId (uuid : jstring) (stored : option jstring)
  : jstring * option jstring :=
  match stored with
  | Some (c :: id) => (c :: id, stored)
  | _ => (uuid, Some uuid)
  end.

Section Transform.
Context {H : Host}.
Variable pg : page.

Definition transformSnowplowPayload (uuid : jstring) (raw : value)
           (stored : option jstring) : completion value * option jstring :=
  let event := match raw with VArr xs => nth 0 xs VUndefined | _ => raw end in
  if truthy event && truthy (get event "unstruct_event") then
    let schema := js_or (get (get event "unstruct_event") "schema") (VStr []) in
    let data := js_or (get (get event "unstruct_event") "data") (VObj []) in
    match schema with
    | VStr s =>
        let parts := split "/" (last (split ":" s) []) in
        let name := match nth_error parts 1 with Some n => VStr n | None => VUndefined end in
        let (id, stored') := getRequestId uuid stored in
        (Normal (obj_literal
           [ (js "requestId", VStr id);
             (js "eventType", name);
             (js "schema", schema);
             (js "payload", data);
             (js "ts", VNum Date_now) ]), stored')
    | _ => (Abrupt TypeError, stored)            (* schema.split is not a function *)
    end
  else if truthy event && str_is (get event "event") "page_view" then
    let (id, stored') := getRequestId uuid stored in
    (Normal (obj_literal
       [ (js "requestId", VStr id);
         (js "eventType", str "page_view");
         (js "payload", obj_literal
            [ (js "pageUrl",
               js_or (js_or (js_or (get event "pageUrl") (get event "page_url"))
                            (get event "url"))
                     (VStr (href pg)));
              (js "title", js_or (get event "pageTitle") (VStr (title pg)));
              (js "referrer", js_or (get event "referrer") (VStr (referrer pg))) ]);
         (js "ts", VNum Date_now) ]), stored')
  else
    let (id, stored') := getRequestId uuid stored in
    (Normal (obj_literal
       [ (js "requestId", VStr id);
         (js "eventType", str "unknown");
         (js "payload", event);
         (js "ts", VNum Date_now) ]), stored').

End Transform.
End Outbound.

(** * Encoders

    The producer side of a carrier is not part of the repository: a tracker
    serialises a value, encodes the text as UTF-8 and the bytes as base64 with
    the URL-safe alphabet (RFC 4648, section 5).  These definitions are that
    side, used to state the round trip through the repository's decoders. *)

Module Encoding.

Definition is_high_surrogate (c : N) : bool := ((55296 <=? c) && (c <=? 56319))%N.
Definition is_low_surrogate (c : N) : bool := ((56320 <=? c) && (c <=? 57343))%N.

(** UTF-8 bytes of a string of UTF-16 code units, as TextEncoder produces them:
    a surrogate pair is one four-byte sequence, an unpaired surrogate is
    U+FFFD. *)
Fixpoint utf8_encode (s : jstring) : list N :=
  match s with
  | [] => []
  | c :: r =>
      if (c <? 128)%N then c :: utf8_encode r
      else if (c <? 2048)%N then
        (192 + c / 64)%N :: (128 + c mod 64)%N :: utf8_encode r
      else if is_high_surrogate c then
        match r with
        | d :: r' =>
            if is_low_surrogate d then
              let cp := (65536 + (c - 55296) * 1024 + (d - 56320))%N in
              (240 + cp / 262144)%N :: (128 + (cp / 4096) mod 64)%N
                :: (128 + (cp / 64) mod 64)%N :: (128 + cp mod 64)%N :: utf8_encode r'
            else 239%N :: 191%N :: 189%N :: utf8_encode r
        | [] => [239; 191; 189]%N
        end
      else if is_low_surrogate c then 239%N :: 191%N :: 189%N :: utf8_encode r
      else
        (224 + (c / 4096) mod 16)%N :: (128 + (c / 64) mod 64)%N
          :: (128 + c mod 64)%N :: utf8_encode r
  end.

Definition alphabet : jstring :=
  js "ABCDEFGHIJKLMNOPQRSTUVWXYZabcdefghijklmnopqrstuvwxyz0123456789+/".

(** The character of a six-bit group. *)
Definition sextet (n : N) : code_unit := nth (N.to_nat (n mod 64)) alphabet 0%N.

(** Standard base64 with padding (what [btoa] computes on a binary string). *)
Fixpoint base64_encode (bytes : list N) : jstring :=
  match bytes with
  | [] => []
  | [a] => [sextet (a / 4); sextet ((a mod 4) * 16); ch "="; ch "="]
  | [a; b] =>
      [sextet (a / 4); sextet ((a mod 4) * 16 + b / 16); sextet ((b mod 16) * 4); ch "="]
  | a :: b :: c :: rest =>
      sextet (a / 4) :: sextet ((a mod 4) * 16 + b / 16)
        :: sextet ((b mod 16) * 4 + c / 64) :: sextet (c mod 64) :: base64_encode rest
  end.

(** The URL-safe alphabet: [+] becomes [-], [/] becomes [_]. *)
Definition to_urlsafe (s : jstring) : jstring :=
  replace_all "/" "_" (replace_all "+" "-" s).

(** Trailing padding removed, as URL-safe encoders commonly do. *)
Definition strip_padding (s : jstring) : jstring :=
  rev (skip_while (fun c => N.eqb c (ch "=")) (rev s)).

(** URL-safe base64 of the UTF-8 bytes of a text, with or without padding. *)
Definition encode_urlsafe (keep_padding : bool) (txt : jstring) : jstring :=
  let b64 := to_urlsafe (base64_encode (utf8_encode txt)) in
  if keep_padding then b64 else strip_padding b64.

End Encoding.

(** * A reference host

    An executable host, for running the parsers on concrete payloads.  It
    follows the platform's algorithms (JSON grammar, forgiving base64, the
    WHATWG UTF-8 decoder, URI decoding); its numerals are the integers of
    magnitude below 2^53, which is what the examples use. *)

Module Reference.

Definition dquote : code_unit := 34%N.

Definition is_ch (c : code_unit) (a : ascii) : bool := N.eqb c (ch a).

(** *** Numbers *)

Definition two52 : N := 4503599627370496%N.
Definition two63 : N := 9223372036854775808%N.

(** The double that is exactly the natural number [n], for [n < 2^53]. *)
Definition double_of_N (n : N) : option number :=
  if (n =? 0)%N then Some num_pos_zero
  else
    let e := N.log2 n in
    if (e <=? 52)%N
    then Some ((e + 1023) * two52 + (n * 2 ^ (52 - e) - two52))%N
    else None.

(** Sign and magnitude of an integer-valued double. *)
Definition integer_of_double (b : number) : option (bool * N) :=
  let sign := (two63 <=? b)%N in
  let ex := ((b / two52) mod 2048)%N in
  let m := (b mod two52)%N in
  if ((ex =? 0) && (m =? 0))%N then Some (sign, 0%N)
  else if ((1023 <=? ex) && (ex <=? 1075))%N then
    let shift := (1075 - ex)%N in
    let full := (two52 + m)%N in
    if (full mod 2 ^ shift =? 0)%N then Some (sign, (full / 2 ^ shift)%N) else None
  else None.

Fixpoint digits (fuel : nat) (n : N) (acc : jstring) : jstring :=
  match fuel with
  | O => acc
  | S f =>
      let acc' := (48 + n mod 10)%N :: acc in
      if (n / 10 =? 0)%N then acc' else digits f (n / 10)%N acc'
  end.

Definition decimal (n : N) : jstring := digits (S (N.to_nat (N.log2 n))) n [].

Definition number_to_string (b : number) : jstring :=
  if num_is_nan b then js "NaN"
  else
    match integer_of_double b with
    | Some (sign, n) =>
        if (n =? 0)%N then js "0"
        else if sign then ch "-" :: decimal n else decimal n
    | None =>
        if (b =? 2047 * two52)%N then js "Infinity"
        else if (b =? two63 + 2047 * two52)%N then js "-Infinity"
        else js "NaN"        (* a fraction or a large magnitude: not printed *)
    end.

Definition is_digit (c : code_unit) : bool := ((48 <=? c) && (c <=? 57))%N.

Fixpoint take_digits (s : jstring) (acc : N) : N * jstring :=
  match s with
  | c :: r => if is_digit c then take_digits r (acc * 10 + (c - 48))%N else (acc, s)
  | [] => (acc, [])
  end.

Definition signed (negative : bool) (b : number) : number :=
  if negative then (b + two63)%N else b.

(** [Number] on a string: blank is zero, a decimal integer is its value, and
    anything else answers NaN. *)
Definition string_to_number (s : jstring) : number :=
  match trim s with
  | [] => num_pos_zero
  | c :: r =>
      let negative := is_ch c "-" in
      let body := if is_ch c "-" || is_ch c "+" then r else c :: r in
      match body with
      | d :: _ =>
          if is_digit d then
            match take_digits body 0%N with
            | (n, []) =>
                match double_of_N n with
                | Some b => signed negative b
                | None => num_NaN
                end
            | _ => num_NaN
            end
          else num_NaN
      | [] => num_NaN
      end
  end.

(** *** JSON.parse *)

Definition is_json_ws (c : code_unit) : bool :=
  ((c =? 32) || (c =? 9) || (c =? 10) || (c =? 13))%N.

Definition hex_value (c : code_unit) : option N :=
  if is_digit c then Some (c - 48)%N
  else if ((97 <=? c) && (c <=? 102))%N then Some (c - 87)%N
  else if ((65 <=? c) && (c <=? 70))%N then Some (c - 55)%N
  else None.

Definition hex4 (a b c d : code_unit) : option N :=
  match hex_value a, hex_value b, hex_value c, hex_value d with
  | Some x, Some y, Some z, Some w => Some (((x * 16 + y) * 16 + z) * 16 + w)%N
  | _, _, _, _ => None
  end.

(** The characters of a string literal after its opening quote; [acc] holds
    what was read, last first. *)
Fixpoint parse_chars (s acc : jstring) : option (jstring * jstring) :=
  match s with
  | [] => None
  | c :: r =>
      if N.eqb c dquote then Some (rev acc, r)
      else if is_ch c "\" then
        match r with
        | e :: r' =>
            if N.eqb e dquote || is_ch e "\" || is_ch e "/" then parse_chars r' (e :: acc)
            else if is_ch e "b" then parse_chars r' (8%N :: acc)
            else if is_ch e "f" then parse_chars r' (12%N :: acc)
            else if is_ch e "n" then parse_chars r' (10%N :: acc)
            else if is_ch e "r" then parse_chars r' (13%N :: acc)
            else if is_ch e "t" then parse_chars r' (9%N :: acc)
            else if is_ch e "u" then
              match r' with
              | h1 :: h2 :: h3 :: h4 :: r'' =>
                  match hex4 h1 h2 h3 h4 with
                  | Some u => parse_chars r'' (u :: acc)
                  | None => None
                  end
              | _ => None
              end
            else None
        | [] => None
        end
      else if (c <? 32)%N then None
      else parse_chars r (c :: acc)
  end.

(** An integer numeral; a fraction or an exponent is outside this host. *)
Definition parse_number (s : jstring) : option (value * jstring) :=
  let negative := startsWith s "-" in
  let body := if negative then tl s else s in
  match body with
  | d :: r =>
      if is_digit d then
        let '(n, rest) := if is_ch d "0" then (0%N, r) else take_digits body 0%N in
        match rest with
        | x :: _ =>
            if is_digit x || is_ch x "." || is_ch x "e" || is_ch x "E" then None
            else option_map (fun b => (VNum (signed negative b), rest)) (double_of_N n)
        | [] => option_map (fun b => (VNum (signed negative b), rest)) (double_of_N n)
        end
      else None
  | [] => None
  end.

Fixpoint expect (word s : jstring) : option jstring :=
  match word, s with
  | [], _ => Some s
  | w :: word', c :: s' => if N.eqb w c then expect word' s' else None
  | _ :: _, [] => None
  end.

Fixpoint parse_value (fuel : nat) (s : jstring) : option (value * jstring) :=
  match fuel with
  | O => None
  | S f =>
      match skip_while is_json_ws s with
      | [] => None
      | c :: r =>
          if is_ch c "{" then
            match skip_while is_json_ws r with
            | d :: r' => if is_ch d "}" then Some (VObj [], r') else parse_members f r []
            | [] => None
            end
          else if is_ch c "[" then
            match skip_while is_json_ws r with
            | d :: r' => if is_ch d "]" then Some (VArr [], r') else parse_elements f r []
            | [] => None
            end
          else if N.eqb c dquote then
            option_map (fun sr => (VStr (fst sr), snd sr)) (parse_chars r [])
          else if is_ch c "t" then option_map (fun r' => (VBool true, r')) (expect (js "rue") r)
          else if is_ch c "f" then option_map (fun r' => (VBool false, r')) (expect (js "alse") r)
          else if is_ch c "n" then option_map (fun r' => (VNull, r')) (expect (js "ull") r)
          else parse_number (c :: r)
      end
  end
with parse_members (fuel : nat) (s : jstring) (acc : list (jstring * value))
  : option (value * jstring) :=
  match fuel with
  | O => None
  | S f =>
      match skip_while is_json_ws s with
      | q :: r =>
          if N.eqb q dquote then
            match parse_chars r [] with
            | Some (k, r1) =>
                match skip_while is_json_ws r1 with
                | colon :: r2 =>
                    if is_ch colon ":" then
                      match parse_value f r2 with
                      | Some (v, r3) =>
                          match skip_while is_json_ws r3 with
                          | sep :: r4 =>
                              if is_ch sep "," then parse_members f r4 (obj_set k v acc)
                              else if is_ch sep "}" then Some (VObj (obj_set k v acc), r4)
                              else None
                          | [] => None
                          end
                      | None => None
                      end
                    else None
                | [] => None
                end
            | None => None
            end
          else None
      | [] => None
      end
  end
with parse_elements (fuel : nat) (s : jstring) (acc : list value)
  : option (value * jstring) :=
  match fuel with
  | O => None
  | S f =>
      match parse_value f s with
      | Some (v, r1) =>
          match skip_while is_json_ws r1 with
          | sep :: r2 =>
              if is_ch sep "," then parse_elements f r2 (acc ++ [v])
              else if is_ch sep "]" then Some (VArr (acc ++ [v]), r2)
              else None
          | [] => None
          end
      | None => None
      end
  end.

Definition json_parse (s : jstring) : option value :=
  match parse_value (2 + length s) s with
  | Some (v, rest) =>
      match skip_while is_json_ws rest with
      | [] => Some v
      | _ => None
      end
  | None => None
  end.

(** *** JSON.stringify *)

Definition hex4_digits (c : code_unit) : jstring :=
  [hex_digit ((c / 4096) mod 16); hex_digit ((c / 256) mod 16);
   hex_digit ((c / 16) mod 16); hex_digit (c mod 16)].

Definition escape_unit (c : code_unit) : jstring :=
  if (c =? 8)%N then js "\b"
  else if (c =? 9)%N then js "\t"
  else if (c =? 10)%N then js "\n"
  else if (c =? 12)%N then js "\f"
  else if (c =? 13)%N then js "\r"
  else if N.eqb c dquote then [ch "\"; dquote]
  else if is_ch c "\" then js "\\"
  else if (c <? 32)%N then ch "\" :: ch "u" :: hex4_digits c
  else [c].

(** QuoteJSONString without the quotes: a surrogate pair stays, an unpaired
    surrogate is escaped. *)
Fixpoint quote_chars (s : jstring) : jstring :=
  match s with
  | [] => []
  | c :: r =>
      if Encoding.is_high_surrogate c then
        match r with
        | d :: r' =>
            if Encoding.is_low_surrogate d then c :: d :: quote_chars r'
            else ch "\" :: ch "u" :: hex4_digits c ++ quote_chars r
        | [] => ch "\" :: ch "u" :: hex4_digits c
        end
      else if Encoding.is_low_surrogate c then ch "\" :: ch "u" :: hex4_digits c ++ quote_chars r
      else escape_unit c ++ quote_chars r
  end.

Definition quote (s : jstring) : jstring := dquote :: quote_chars s ++ [dquote].

Definition num_is_finite (b : number) : bool :=
  negb (N.eqb (N.land (N.shiftr b 52) 2047) 2047).

Fixpoint join_comma (parts : list jstring) : jstring :=
  match parts with
  | [] => []
  | [p] => p
  | p :: rest => p ++ ch "," :: join_comma rest
  end.

(** [None] is the answer [undefined]. *)
Fixpoint json_stringify (v : value) : option jstring :=
  match v with
  | VUndefined => None
  | VNull => Some (js "null")
  | VBool true => Some (js "true")
  | VBool false => Some (js "false")
  | VNum n => Some (if num_is_finite n then number_to_string n else js "null")
  | VStr s => Some (quote s)
  | VArr xs =>
      let parts :=
        (fix each (l : list value) : list jstring :=
           match l with
           | [] => []
           | x :: r =>
               match json_stringify x with
               | Some t => t
               | None => js "null"
               end :: each r
           end) xs in
      Some (ch "[" :: join_comma parts ++ [ch "]"])
  | VObj fields =>
      let parts :=
        (fix each (l : list (jstring * value)) : list jstring :=
           match l with
           | [] => []
           | (k, x) :: r =>
               match json_stringify x with
               | Some t => (quote k ++ ch ":" :: t) :: each r
               | None => each r
               end
           end) fields in
      Some (ch "{" :: join_comma parts ++ [ch "}"])
  end.

(** *** atob: forgiving base64 *)

Definition is_ascii_ws (c : code_unit) : bool :=
  ((c =? 9) || (c =? 10) || (c =? 12) || (c =? 13) || (c =? 32))%N.

Definition base64_value (c : code_unit) : option N :=
  if ((65 <=? c) && (c <=? 90))%N then Some (c - 65)%N
  else if ((97 <=? c) && (c <=? 122))%N then Some (c - 71)%N
  else if is_digit c then Some (c + 4)%N
  else if is_ch c "+" then Some 62%N
  else if is_ch c "/" then Some 63%N
  else None.

Fixpoint sextets (s : jstring) : option (list N) :=
  match s with
  | [] => Some []
  | c :: r =>
      match base64_value c, sextets r with
      | Some v, Some vs => Some (v :: vs)
      | _, _ => None
      end
  end.

Fixpoint bytes_of_sextets (l : list N) : list N :=
  match l with
  | a :: b :: c :: d :: rest =>
      (a * 4 + b / 16)%N :: ((b mod 16) * 16 + c / 4)%N :: ((c mod 4) * 64 + d)%N
        :: bytes_of_sextets rest
  | [a; b; c] => [(a * 4 + b / 16)%N; ((b mod 16) * 16 + c / 4)%N]
  | [a; b] => [(a * 4 + b / 16)%N]
  | _ => []
  end.

(** One or two trailing [=] go when the length is a multiple of four. *)
Definition drop_padding (s : jstring) : jstring :=
  if Nat.eqb (length s mod 4) 0 then
    match rev s with
    | a :: b :: r => if is_ch a "=" then (if is_ch b "=" then rev r else rev (b :: r)) else s
    | _ => s
    end
  else s.

Definition forgiving_atob (s : jstring) : option jstring :=
  let data := drop_padding (filter (fun c => negb (is_ascii_ws c)) s) in
  if Nat.eqb (length data mod 4) 1 then None
  else option_map bytes_of_sextets (sextets data).

(** *** UTF-8 decoding (the WHATWG decoder) *)

Record utf8_state := {
  code_point : N; bytes_seen : N; bytes_needed : N; lower : N; upper : N
}.

Definition utf8_idle : utf8_state :=
  {| code_point := 0; bytes_seen := 0; bytes_needed := 0; lower := 128; upper := 191 |}.

(** A byte read with no sequence open: what is emitted ([None] is an error)
    and the next state. *)
Definition utf8_lead (b : N) : list (option N) * utf8_state :=
  if (b <=? 127)%N then ([Some b], utf8_idle)
  else if ((194 <=? b) && (b <=? 223))%N then
    ([], {| code_point := N.land b 31; bytes_seen := 0; bytes_needed := 1;
            lower := 128; upper := 191 |})
  else if ((224 <=? b) && (b <=? 239))%N then
    ([], {| code_point := N.land b 15; bytes_seen := 0; bytes_needed := 2;
            lower := if (b =? 224)%N then 160%N else 128%N;
            upper := if (b =? 237)%N then 159%N else 191%N |})
  else if ((240 <=? b) && (b <=? 244))%N then
    ([], {| code_point := N.land b 7; bytes_seen := 0; bytes_needed := 3;
            lower := if (b =? 240)%N then 144%N else 128%N;
            upper := if (b =? 244)%N then 143%N else 191%N |})
  else ([None], utf8_idle).

Definition utf8_step (st : utf8_state) (b : N) : list (option N) * utf8_state :=
  if (bytes_needed st =? 0)%N then utf8_lead b
  else if ((lower st <=? b) && (b <=? upper st))%N then
    let cp := (code_point st * 64 + N.land b 63)%N in
    if (bytes_seen st + 1 =? bytes_needed st)%N then ([Some cp], utf8_idle)
    else ([], {| code_point := cp; bytes_seen := bytes_seen st + 1;
                 bytes_needed := bytes_needed st; lower := 128; upper := 191 |})
  else
    (* the open sequence is an error; the byte is read again as a lead *)
    let '(out, st') := utf8_lead b in (None :: out, st').

Fixpoint utf8_run (st : utf8_state) (bytes : list N) : list (option N) :=
  match bytes with
  | [] => if (bytes_needed st =? 0)%N then [] else [None]
  | b :: r => let '(out, st') := utf8_step st b in out ++ utf8_run st' r
  end.

Definition utf16_units (cp : N) : jstring :=
  if (cp <? 65536)%N then [cp]
  else [(55296 + (cp - 65536) / 1024)%N; (56320 + (cp - 65536) mod 1024)%N].

(** [new TextDecoder().decode(bytes)]: a leading byte order mark goes, an
    error becomes U+FFFD. *)
Definition text_decode (bytes : list N) : jstring :=
  let bytes :=
    match bytes with
    | 239%N :: 187%N :: 191%N :: r => r
    | _ => bytes
    end in
  flat_map (fun o => match o with Some cp => utf16_units cp | None => [65533%N] end)
           (utf8_run utf8_idle bytes).

Fixpoint strict_units (items : list (option N)) : option jstring :=
  match items with
  | [] => Some []
  | Some cp :: r => option_map (app (utf16_units cp)) (strict_units r)
  | None :: _ => None
  end.

Definition utf8_decode_strict (bytes : list N) : option jstring :=
  strict_units (utf8_run utf8_idle bytes).

(** *** decodeURIComponent *)

(** [pending] holds the bytes of the escapes read since the last literal
    character, last first; they are decoded together. *)
Fixpoint uri_decode (s : jstring) (pending : list N) : option jstring :=
  match s with
  | [] => utf8_decode_strict (rev pending)
  | c :: r =>
      if is_ch c "%" then
        match r with
        | h :: l :: r' =>
            match hex_value h, hex_value l with
            | Some x, Some y => uri_decode r' ((x * 16 + y)%N :: pending)
            | _, _ => None
            end
        | _ => None
        end
      else
        match utf8_decode_strict (rev pending), uri_decode r [] with
        | Some a, Some b => Some (a ++ c :: b)
        | _, _ => None
        end
  end.

(** *** The host *)

(** The clock of the examples: 1700000000000 ms. *)
Definition clock : number :=
  match double_of_N 1700000000000 with Some b => b | None => num_NaN end.

#[export] Instance host : Host := {|
  JSON_parse := json_parse;
  JSON_stringify := json_stringify;
  atob_defined := true;
  atob := forgiving_atob;
  TextDecoder_defined := true;
  TextDecoder_decode := text_decode;
  decodeURIComponent := fun s => uri_decode s [];
  TextEncoder_defined := true;
  TextEncoder_length := fun s => length (Encoding.utf8_encode s);
  StringToNumber := string_to_number;
  NumberToString := number_to_string;
  Date_now := clock;
  Worker_defined := true
|}.

(** A host of an older platform: no TextDecoder, no TextEncoder, no Worker. *)
Definition legacy_host : Host := {|
  JSON_parse := json_parse;
  JSON_stringify := json_stringify;
  atob_defined := true;
  atob := forgiving_atob;
  TextDecoder_defined := false;
  TextDecoder_decode := text_decode;
  decodeURIComponent := fun s => uri_decode s [];
  TextEncoder_defined := false;
  TextEncoder_length := fun s => length (Encoding.utf8_encode s);
  StringToNumber := string_to_number;
  NumberToString := number_to_string;
  Date_now := clock;
  Worker_defined := false
|}.

End Reference.

(** * src/hooks/useCustomFetch.js: the merged headers *)

Module CustomFetch.

Fixpoint indexed (i : N) (xs : list value) : list (jstring * value) :=
  match xs with
  | [] => []
  | x :: r => (Reference.decimal i, x) :: indexed (i + 1) r
  end.

(** The own enumerable properties of a source of [Object.assign]: the fields
    of an object, the elements of an array and the characters of a string
    under their indices, nothing for the other values. *)
Definition own_enumerable (v : value) : list (jstring * value) :=
  match v with
  | VObj fields => fields
  | VArr xs => indexed 0 xs
  | VStr s => indexed 0 (map (fun c => VStr [c]) s)
  | _ => []
  end.

(** [Object.assign(target, source)]: one write per property, in order. *)
Definition assign (target : list (jstring * value)) (source : value)
  : list (jstring * value) :=
  fold_left (fun acc kv => obj_set (fst kv) (snd kv) acc) (own_enumerable source) target.

Definition buildMergedHeaders (initHeaders optionHeaders : value) : value :=
  let merged := assign [] (js_or initHeaders (VObj [])) in
  let content_type :=
    match lookup (js "Content-Type") merged with Some v => v | None => VUndefined end in
  let merged :=
    obj_set (js "Content-Type") (js_or content_type (str "application/json")) merged in
  VObj (assign merged optionHeaders).

End CustomFetch.

(** * Derived notions and example payloads *)

(** JSON text written with ['] in place of the double quote. *)
Definition json_text (s : string) : jstring :=
  map (fun c => if N.eqb c (ch "'") then Reference.dquote else c) (js s).

(** [{foo: 1}], [{data: x}] and the carrier [{schema: 's', data: x}]. *)
Definition foo1 : value := VObj [(js "foo", VNum num_one)].
Definition wrapped (x : value) : value := VObj [(js "data", x)].
Definition carrier (x : value) : value := VObj [(js "schema", str "s"); (js "data", x)].

(** A non-null object: what [parseSnowplowEvent] normalizes. *)
Definition is_object (e : value) : bool := truthy e && typeof_is_object e.

(** A value that [Number] converts without calling into an object. *)
Definition primitive (v : value) : bool :=
  match v with VArr _ | VObj _ => false | _ => true end.

(** Three events of an envelope. *)
Definition envelope3 : list value :=
  [ VObj [(js "e", str "se"); (js "se_ca", str "button"); (js "se_ac", str "click");
          (js "se_la", str "signup")];
    VObj [(js "e", str "pv"); (js "url", str "/home")];
    VObj [(js "e", str "ue"); (js "unstruct_event", carrier foo1)] ].

(** Five array elements, one of them null, and options with small chunks. *)
Definition five_events : value :=
  VArr [ VObj [(js "e", str "se")]; VNull; VObj [(js "e", str "pv")];
         VObj [(js "e", str "ue"); (js "ue_px", str "eyJhIjoxfQ")]; VObj [] ].


(** An object with an own [toString] property, and an event whose timestamp is
    such an object: [{dtm: {toString: 1}}]. *)
Definition unconvertible : value := VObj [(js "toString", VNum num_one)].
Definition bad_event : value := VObj [(js "dtm", unconvertible)].

(** The default options with an event threshold of 0. *)
Definition threshold_zero : WebWorker.options := {|
  WebWorker.useWorker := true;
  WebWorker.workerThresholdEvents := 0;
  WebWorker.workerThresholdBytes := 50 * 1024;
  WebWorker.chunkSize := 50;
  WebWorker.workerTimeoutMs := 3000;
  WebWorker.debug := false
|}.

(** A message [{ok: true, ...}] is the one clean success. *)
Definition clean_success (e : WebWorker.worker_event) : bool :=
  match e with
  | WebWorker.OnMessage d => truthy (js_and d (get d "ok"))
  | WebWorker.OnError => false
  end.

(** The worker event that beats the timer, if any. *)
Definition first_reply (deadline : Z) (replies : list (Z * WebWorker.worker_event))
  : option (Z * WebWorker.worker_event) :=
  match replies with
  | te :: _ => if (fst te <? deadline)%Z then Some te else None
  | [] => None
  end.

(** The message of a worker whose own parse failed. *)
Definition not_ok : value :=
  VObj [(js "ok", VBool false); (js "error", str "TypeError")].

(** A batch of 101 events, the first with an unconvertible timestamp. *)
Definition bad_batch : value := VArr (bad_event :: repeat (VObj [(js "e", str "pv")]) 100).

(** The standard base64 alphabet, and the decoders' translation back to it. *)
Definition is_std_char (c : code_unit) : bool :=
  ((65 <=? c) && (c <=? 90) || (97 <=? c) && (c <=? 122)
   || (48 <=? c) && (c <=? 57) || (c =? 43) || (c =? 47))%N.

Definition from_urlsafe (s : jstring) : jstring :=
  replace_all "_" "/" (replace_all "-" "+" s).

(** [{msg: ...}] with Latin-1 (U+00E9), CJK (U+4E2D) and a character outside
    the basic plane (U+1F600, a surrogate pair). *)
Definition greeting : value :=
  VObj [(js "msg",
         VStr [104; 233; 108; 108; 111; 32; 20013; 32; 55357; 56832]%N)].

Definition greeting_text : jstring :=
  match Reference.json_stringify greeting with Some t => t | None => [] end.

(** The default options with a chunk size of 0. *)
Definition chunks_of_zero : WebWorker.options := {|
  WebWorker.useWorker := true;
  WebWorker.workerThresholdEvents := 100;
  WebWorker.workerThresholdBytes := 50 * 1024;
  WebWorker.chunkSize := 0;
  WebWorker.workerTimeoutMs := 3000;
  WebWorker.debug := false
|}.

(** The entries of [recentErrors] after a call that is let through. *)
Definition next_recent (key : jstring) (now : Z) (m : list (jstring * Z))
  : list (jstring * Z) :=
  if 1000 <? length (ErrorHandler.map_set key now m)
  then ErrorHandler.prune (ErrorHandler.map_set key now m)
  else ErrorHandler.map_set key now m.

(** A full Map of recent errors: ['boom'] first, then 999 other keys, all
    reported at time 1. *)
Definition full_recent : list (jstring * Z) :=
  (js "boom", 1%Z)
    :: map (fun i => (Reference.decimal (N.of_nat i), 1%Z)) (seq 1 999).

(** Whether a character occurs in a string. *)
Definition has_char (c : ascii) (s : jstring) : bool := existsb (N.eqb (ch c)) s.

(** A page, and an error event with an Iglu schema. *)
Definition some_page : Outbound.page := {|
  Outbound.href := js "https://shop.example/cart";
  Outbound.title := js "Cart";
  Outbound.referrer := []
|}.

Definition js_error_event : value :=
  VObj [(js "unstruct_event",
         VObj [(js "schema", str "iglu:com.acme/js_error/jsonschema/1-0-0");
               (js "data", foo1)])].

(** The own property of an object under any key. *)
Definition own_field (v : value) (k : jstring) : option value :=
  match v with
  | VObj fields => lookup k fields
  | _ => None
  end.

(** * Properties *)

(** ** Basic facts *)

Lemma jstr_eqb_eq (a b : jstring) : jstr_eqb a b = true <-> a = b.
Proof.
  revert b; induction a as [|x a IH]; intros [|y b]; simpl; split; intro E;
    try reflexivity; try discriminate.
  - apply andb_true_iff in E as [E1 E2].
    apply N.eqb_eq in E1. apply IH in E2. now subst.
  - injection E as -> ->. rewrite N.eqb_refl. now apply IH.
Qed.

Lemma bind_normal (A B : Type) (c : completion A) (k : A -> completion B) (b : B) :
  bind c k = Normal b -> exists a, c = Normal a /\ k a = Normal b.
Proof. destruct c as [a|e]; simpl; intro E; [now exists a | discriminate]. Qed.

Section ConstFacts.
Context {H : Host}.

(** An event record is an object, and the record of an object is never null. *)
Lemma parse_event_inv (ev enc r : value) :
  Const.parseSnowplowEvent ev enc = Normal r ->
  (truthy ev && typeof_is_object ev = false /\ r = VNull)
  \/ (truthy ev && typeof_is_object ev = true /\
      exists cm, Const.common ev = Normal cm /\
        r = match Const.shape_of ev with
            | Const.Structured => Const.structured_event ev cm
            | Const.SelfDescribing => Const.self_describing_event ev enc cm
            | Const.PageView => Const.page_view_event ev cm
            | Const.Fallback => Const.fallback_event ev cm
            end).
Proof.
  unfold Const.parseSnowplowEvent.
  destruct (truthy ev); destruct (typeof_is_object ev); simpl; intro E;
    try (left; split; [reflexivity | congruence]).
  right. split; [reflexivity|].
  apply bind_normal in E as (cm & Ecm & E). exists cm. split; [assumption | congruence].
Qed.

Lemma common_inv (ev : value) (cm : list (jstring * value)) :
  Const.common ev = Normal cm ->
  exists ts,
    cm = [ (js "eid", js_or (get ev "eid") VNull);
           (js "ts", VNum ts);
           (js "vid", js_or (get ev "vid") VNull);
           (js "sid", js_or (get ev "sid") VNull);
           (js "p", js_or (get ev "p") VNull);
           (js "url", js_or (js_or (get ev "url") (get ev "pageUrl")) VNull);
           (js "raw", ev) ].
Proof.
  unfold Const.common. intro E. apply bind_normal in E as (ts & _ & E).
  exists ts. congruence.
Qed.

(** *** C9 *)

(** C9, as the code has it: an event record carries a [payload] field exactly
    in the self-describing and the fallback branch.  A structured-event record
    carries category/action/label/property and a page-view record
    title/url/referrer instead; neither has a [payload] field. *)
Theorem C9_payload_field_by_branch (ev enc r : value) :
  Const.parseSnowplowEvent ev enc = Normal r ->
  r <> VNull ->
  has_own r "payload" =
    match Const.shape_of ev with
    | Const.SelfDescribing | Const.Fallback => true
    | Const.Structured | Const.PageView => false
    end.
Proof.
  intros E Hr. apply parse_event_inv in E as [[_ ->] | (_ & cm & Ecm & ->)];
    [congruence|].
  apply common_inv in Ecm as (ts & ->).
  destruct (Const.shape_of ev); reflexivity.
Qed.

End ConstFacts.

(** C9 fails as stated: the record of a structured event has no [payload]. *)
Lemma C9_structured_event_lacks_payload :
  exists r,
    Const.parseSnowplowEvent (H := Reference.host)
      (VObj [(js "e", str "se"); (js "se_ca", str "button")]) VUndefined = Normal r
    /\ get r "eventType" = str "structured_event"
    /\ has_own r "payload" = false.
Proof. eexists. repeat split; vm_compute; reflexivity. Qed.

(** A run of [C9_payload_field_by_branch] on a fallback event. *)
Lemma C9_witness :
  exists r,
    Const.parseSnowplowEvent (H := Reference.host)
      (VObj [(js "e", str "click")]) VUndefined = Normal r
    /\ has_own r "payload" = true.
Proof.
  eexists. split; [vm_compute; reflexivity|].
  apply (@C9_payload_field_by_branch Reference.host
           (VObj [(js "e", str "click")]) VUndefined);
    [vm_compute; reflexivity | discriminate].
Defined.

(** *** C7 *)

Section Renormalize.
Context {H : Host}.

(** C7, as the code has it: [parseSnowplowEvent] reads the discriminators [e]
    and [event], and an event record has neither (it has [eventType]).
    Normalizing a record again therefore takes the fallback branch: the new
    record has eventType ['unknown'] and the whole input record as payload. *)
Theorem C7_renormalizing_takes_fallback (ev enc enc' r : value) :
  Const.parseSnowplowEvent ev enc = Normal r ->
  r <> VNull ->
  exists r',
    Const.parseSnowplowEvent r enc' = Normal r'
    /\ get r' "eventType" = str "unknown"
    /\ get r' "payload" = r.
Proof.
  intros E Hr. apply parse_event_inv in E as [[_ ->] | (_ & cm & Ecm & ->)];
    [congruence|].
  apply common_inv in Ecm as (ts & ->).
  destruct (Const.shape_of ev); eexists; (split; [reflexivity | split; reflexivity]).
Qed.

End Renormalize.

(** C7 fails as stated: normalizing the record of a structured event again
    changes its eventType to ['unknown'] and gives it a payload it did not
    have. *)
Lemma C7_second_pass_changes_event :
  exists r r',
    Const.parseSnowplowEvent (H := Reference.host)
      (VObj [(js "e", str "se"); (js "se_ca", str "button")]) VUndefined = Normal r
    /\ Const.parseSnowplowEvent (H := Reference.host) r VUndefined = Normal r'
    /\ get r "eventType" = str "structured_event"
    /\ get r' "eventType" = str "unknown"
    /\ get r "payload" = VUndefined
    /\ get r' "payload" = r.
Proof. do 2 eexists. repeat split; vm_compute; reflexivity. Qed.

(** A run of [C7_renormalizing_takes_fallback] on the record of a page view. *)
Lemma C7_witness :
  exists r r',
    Const.parseSnowplowEvent (H := Reference.host)
      (VObj [(js "e", str "pv"); (js "url", str "/home")]) VUndefined = Normal r
    /\ Const.parseSnowplowEvent (H := Reference.host) r VUndefined = Normal r'
    /\ get r' "eventType" = str "unknown"
    /\ get r' "payload" = r.
Proof.
  destruct (@C7_renormalizing_takes_fallback Reference.host
              (VObj [(js "e", str "pv"); (js "url", str "/home")]) VUndefined VUndefined
              _ eq_refl) as (r' & E1 & E2 & E3).
  - vm_compute. discriminate.
  - eexists. exists r'. split; [reflexivity|]. split; [exact E1|]. split; [exact E2 | exact E3].
Defined.

(** *** C8 *)

Section RawText.
Context {H : Host}.

(** C8, as the code has it: a string that neither JSON-parses nor
    base64-decodes yields exactly one ['raw_text'] event whose payload is the
    input with its surrounding whitespace removed ([payload: t], where
    [t = parsed.trim()]); it is the input verbatim only when there is nothing
    to trim. *)
Theorem C8_raw_text_payload_is_trimmed (s : jstring) (enc : value) :
  Const.tryParseJsonSafe (VStr (trim s)) = VNull ->
  Const.tryDecodeBase64JsonSafe (VStr (trim s)) = VNull ->
  exists e,
    Const.parseSync (VStr s) enc = Normal [e]
    /\ get e "eventType" = str "raw_text"
    /\ get e "payload" = VStr (trim s).
Proof.
  intros Hjson Hb64. exists (Const.raw_text (trim s)).
  split; [| split; reflexivity].
  unfold Const.parseSync. simpl is_nullish. cbv iota.
  rewrite Hjson, Hb64. simpl. now destruct (Const.looks_like_json (trim s)).
Qed.

End RawText.

(** C8 fails as stated: with surrounding whitespace the payload is not the
    original string. *)
Lemma C8_payload_loses_whitespace :
  Const.tryParseJsonSafe (H := Reference.host) (str "  not-json-not-base64###  ") = VNull
  /\ Const.tryDecodeBase64JsonSafe (H := Reference.host) (str "  not-json-not-base64###  ") = VNull
  /\ exists e,
       Const.parseSync (H := Reference.host) (str "  not-json-not-base64###  ") VUndefined
         = Normal [e]
       /\ get e "payload" = str "not-json-not-base64###"
       /\ get e "payload" <> str "  not-json-not-base64###  ".
Proof.
  split; [vm_compute; reflexivity|]. split; [vm_compute; reflexivity|].
  eexists. split; [vm_compute; reflexivity|]. split; [vm_compute; reflexivity|].
  vm_compute. discriminate.
Qed.

(** A run of [C8_raw_text_payload_is_trimmed] on the spec's example string. *)
Lemma C8_witness :
  exists e,
    Const.parseSync (H := Reference.host) (str "not-json-not-base64###") VUndefined
      = Normal [e]
    /\ get e "eventType" = str "raw_text"
    /\ get e "payload" = str "not-json-not-base64###".
Proof.
  apply (@C8_raw_text_payload_is_trimmed Reference.host (js "not-json-not-base64###")
           VUndefined); vm_compute; reflexivity.
Defined.

(** *** C6 *)

Section DoubleUnwrap.
Context {H : Host}.

Lemma self_describing_is_object (ev : value) :
  Const.shape_of ev = Const.SelfDescribing ->
  truthy ev && typeof_is_object ev = true.
Proof. destruct ev; try reflexivity; vm_compute; discriminate. Qed.

(** C6: when the decoded carrier of a self-describing event is
    [{schema:'s', data:{data:x}}] with [x] an object, the payload is [x]: the
    level [data.data] is unwrapped once and [x] itself is left alone, whatever
    it contains.  With [x = {foo:1}] the payload is [{foo:1}]; with
    [x = {data:{foo:1}}] (a triple wrapping) it is [{data:{foo:1}}]. *)
Theorem C6_unwraps_exactly_one_extra_level (ev enc x : value) (cm : list (jstring * value)) :
  Const.shape_of ev = Const.SelfDescribing ->
  Const.common ev = Normal cm ->
  Const.decode_carrier ev enc = carrier (wrapped x) ->
  typeof_is_object x = true ->
  exists r,
    Const.parseSnowplowEvent ev enc = Normal r
    /\ get r "eventType" = str "unstruct"
    /\ get r "schema" = str "s"
    /\ get r "payload" = x.
Proof.
  intros Hshape Hcm Hdec Hx.
  unfold Const.parseSnowplowEvent.
  pose proof (self_describing_is_object ev Hshape) as Hobj.
  apply andb_true_iff in Hobj as [-> ->]. simpl negb. simpl orb. cbv iota.
  rewrite Hcm. simpl bind. rewrite Hshape.
  eexists. split; [reflexivity|].
  apply common_inv in Hcm as (ts & ->).
  unfold Const.self_describing_event. rewrite Hdec.
  repeat split; try reflexivity.
  destruct x; try discriminate; reflexivity.
Qed.

End DoubleUnwrap.

(** Runs of [C6_unwraps_exactly_one_extra_level]: a double wrapping carried as
    inline JSON in [ue_pr], and a triple wrapping carried as URL-safe base64 in
    [ue_px]. *)
Lemma C6_witness :
  (exists r,
     Const.parseSnowplowEvent (H := Reference.host)
       (VObj [(js "e", str "ue");
              (js "ue_pr", VStr (json_text "{'schema':'s','data':{'data':{'foo':1}}}"))])
       VUndefined = Normal r
     /\ get r "eventType" = str "unstruct"
     /\ get r "schema" = str "s"
     /\ get r "payload" = foo1)
  /\ (exists r,
        Const.parseSnowplowEvent (H := Reference.host)
          (VObj [(js "e", str "ue");
                 (js "ue_px",
                  VStr (Encoding.encode_urlsafe false
                     (json_text "{'schema':'s','data':{'data':{'data':{'foo':1}}}}")))])
          VUndefined = Normal r
        /\ get r "eventType" = str "unstruct"
        /\ get r "schema" = str "s"
        /\ get r "payload" = wrapped foo1).
Proof.
  split.
  - eapply (@C6_unwraps_exactly_one_extra_level Reference.host _ VUndefined foo1);
      vm_compute; reflexivity.
  - eapply (@C6_unwraps_exactly_one_extra_level Reference.host _ VUndefined (wrapped foo1));
      vm_compute; reflexivity.
Defined.

(** ** Batches *)

Section MapM.
Variables (A B : Type) (f : A -> completion B).

Lemma mapM_length (l : list A) (out : list B) :
  mapM f l = Normal out -> length out = length l.
Proof.
  revert out; induction l as [|x l IH]; simpl; intros out E.
  - injection E as <-. reflexivity.
  - apply bind_normal in E as (y & _ & E).
    apply bind_normal in E as (ys & Eys & E).
    injection E as <-. simpl. f_equal. now apply IH.
Qed.

Lemma mapM_nth (l : list A) (out : list B) :
  mapM f l = Normal out ->
  forall i x, nth_error l i = Some x ->
  exists y, nth_error out i = Some y /\ f x = Normal y.
Proof.
  revert out; induction l as [|x l IH]; simpl; intros out E i a Hi.
  - destruct i; discriminate.
  - apply bind_normal in E as (y & Ey & E).
    apply bind_normal in E as (ys & Eys & E).
    injection E as <-. destruct i as [|i]; simpl in *.
    + injection Hi as <-. now exists y.
    + now apply (IH ys Eys i a).
Qed.

Lemma mapM_app (l1 l2 : list A) :
  mapM f (l1 ++ l2) =
  (ys1 <- mapM f l1 ;; ys2 <- mapM f l2 ;; Normal (ys1 ++ ys2)).
Proof.
  induction l1 as [|x l1 IH]; simpl.
  - destruct (mapM f l2); reflexivity.
  - destruct (f x) as [y|e]; simpl; [|reflexivity].
    rewrite IH. destruct (mapM f l1) as [ys1|e]; simpl; [|reflexivity].
    destruct (mapM f l2); reflexivity.
Qed.

(** When every element returns, the whole map returns. *)
Lemma mapM_total (l : list A) :
  Forall (fun x => exists y, f x = Normal y) l -> exists out, mapM f l = Normal out.
Proof.
  induction 1 as [|x l (y & Ey) _ (ys & Eys)]; simpl.
  - now exists [].
  - rewrite Ey, Eys. simpl. now eexists.
Qed.

End MapM.

Lemma map_filter_keeps_truthy (f : value -> completion value) (l : list value) :
  Forall (fun x => forall y, f x = Normal y -> truthy y = true) l ->
  map_filter f l = mapM f l.
Proof.
  unfold map_filter. intro Hall.
  destruct (mapM f l) as [out|e] eqn:E; [|reflexivity]. simpl. f_equal.
  revert out E. induction Hall as [|x l Hx _ IH]; simpl; intros out E.
  - injection E as <-. reflexivity.
  - apply bind_normal in E as (y & Ey & E).
    apply bind_normal in E as (ys & Eys & E).
    injection E as <-. simpl. rewrite (Hx y Ey). f_equal. now apply IH.
Qed.

Section Envelope.
Context {H : Host}.

Lemma event_of_object_is_truthy (ev enc r : value) :
  is_object ev = true -> Const.parseSnowplowEvent ev enc = Normal r -> truthy r = true.
Proof.
  unfold is_object. intros Hobj E.
  apply parse_event_inv in E as [[E _] | (_ & cm & _ & ->)]; [congruence|].
  destruct (Const.shape_of ev); reflexivity.
Qed.

(** On an envelope whose elements are objects [parseSync] is the element-wise
    normalization of [data]: nothing is filtered out, and a throw of an
    element is the throw of the batch. *)
Lemma envelope_elementwise (env enc : value) (data : list value) :
  truthy (get env "schema") = true ->
  get env "data" = VArr data ->
  Forall (fun e => is_object e = true) data ->
  Const.parseSync env enc = mapM (fun e => Const.parseSnowplowEvent e enc) data.
Proof.
  intros Hschema Hdata Hall.
  destruct env; try discriminate.
  change (Const.parseSync (VObj fields) enc)
    with (Const.parse_resolved (VObj fields) enc).
  unfold Const.parse_resolved.
  change (truthy (VObj fields) && typeof_is_object (VObj fields)) with true.
  cbv iota. rewrite Hschema, Hdata. simpl.
  apply map_filter_keeps_truthy.
  eapply Forall_impl; [|exact Hall]. simpl. intros e He r.
  now apply event_of_object_is_truthy.
Qed.

Lemma ToNumber_primitive (v : value) :
  primitive v = true -> exists n, ToNumber v = Normal n.
Proof. destruct v as [| |[|]| | | |]; try discriminate; intros _; simpl; now eexists. Qed.

Lemma common_total (ev : value) :
  primitive (get ev "dtm") = true -> primitive (get ev "timestamp") = true ->
  exists cm, Const.common ev = Normal cm.
Proof.
  intros Hd Ht. unfold Const.common.
  destruct (ToNumber_primitive _ Hd) as (n1 & E1).
  destruct (ToNumber_primitive _ Ht) as (n2 & E2).
  rewrite E1, E2.
  destruct (truthy (get ev "dtm")); [|destruct (truthy (get ev "timestamp"))];
    simpl; now eexists.
Qed.

(** With timestamps that are not objects, the batch is total: the envelope
    always yields [data.length] events. *)
Theorem envelope_total (env enc : value) (data : list value) :
  truthy (get env "schema") = true ->
  get env "data" = VArr data ->
  Forall (fun e => is_object e = true
                   /\ primitive (get e "dtm") = true
                   /\ primitive (get e "timestamp") = true) data ->
  exists out, Const.parseSync env enc = Normal out /\ length out = length data.
Proof.
  intros Hschema Hdata Hall.
  assert (E : Const.parseSync env enc
              = mapM (fun e => Const.parseSnowplowEvent e enc) data).
  { apply envelope_elementwise; try assumption.
    eapply Forall_impl; [|exact Hall]. now intros e (He & _). }
  destruct (mapM_total (fun e => Const.parseSnowplowEvent e enc) (l := data)) as (out & Eout).
  { eapply Forall_impl; [|exact Hall]. intros e (He & Hd & Ht).
    destruct (common_total e Hd Ht) as (cm & Ecm).
    unfold Const.parseSnowplowEvent. unfold is_object in He.
    apply andb_true_iff in He as [-> ->]. simpl. rewrite Ecm. simpl. now eexists. }
  exists out. rewrite E. split; [exact Eout|]. now apply mapM_length in Eout.
Qed.

(** *** C10 *)

(** C10: for an envelope [{schema, data:[...]}] (schema truthy, as the code
    tests it) whose data elements are all non-null objects, [parseSync] is the
    element-wise normalization of [data], in order and with nothing filtered
    out: it returns exactly when every element's normalization returns, and
    then the batch has the length of [data] and its i-th element is the
    normalization of the i-th element. *)
Theorem C10_envelope_is_elementwise (env enc : value) (data : list value) :
  truthy (get env "schema") = true ->
  get env "data" = VArr data ->
  Forall (fun e => is_object e = true) data ->
  Const.parseSync env enc = mapM (fun e => Const.parseSnowplowEvent e enc) data
  /\ forall out,
       Const.parseSync env enc = Normal out ->
       length out = length data
       /\ forall i e, nth_error data i = Some e ->
            exists r, nth_error out i = Some r
                      /\ Const.parseSnowplowEvent e enc = Normal r.
Proof.
  intros Hschema Hdata Hall.
  pose proof (envelope_elementwise env enc Hschema Hdata Hall) as E.
  split; [exact E|]. intros out Eout. rewrite E in Eout. split.
  - now apply mapM_length in Eout.
  - now apply mapM_nth.
Qed.

End Envelope.

(** A run of [C10_envelope_is_elementwise] on an envelope of three events. *)
Lemma C10_witness :
  exists out,
    Const.parseSync (H := Reference.host)
      (VObj [(js "schema", str "x"); (js "data", VArr envelope3)]) VUndefined = Normal out
    /\ length out = 3
    /\ map (fun r => get r "eventType") out
       = [str "structured_event"; str "page_view"; str "unstruct"].
Proof.
  destruct (@C10_envelope_is_elementwise Reference.host
              (VObj [(js "schema", str "x"); (js "data", VArr envelope3)]) VUndefined
              envelope3 eq_refl eq_refl) as [E Hout].
  - repeat constructor.
  - eexists. split; [vm_compute; reflexivity|]. split.
    + apply (Hout _ ltac:(vm_compute; reflexivity)).
    + vm_compute. reflexivity.
Defined.

(** ** The chunked loop *)

Lemma map_filter_app (f : value -> completion value) (l1 l2 : list value) :
  map_filter f (l1 ++ l2) =
  (a <- map_filter f l1 ;; b <- map_filter f l2 ;; Normal (a ++ b)).
Proof.
  unfold map_filter. rewrite mapM_app.
  destruct (mapM f l1) as [ys1|e]; simpl; [|reflexivity].
  destruct (mapM f l2) as [ys2|e]; simpl; [|reflexivity].
  now rewrite filter_app.
Qed.

Lemma push_events_spec (f : value -> completion value) (sl out : list value) :
  push_events f sl out = (r <- map_filter f sl ;; Normal (out ++ r)).
Proof.
  revert out; induction sl as [|x sl IH]; intro out; simpl.
  - now rewrite app_nil_r.
  - unfold map_filter. simpl. destruct (f x) as [ev|e]; simpl; [|reflexivity].
    rewrite IH. unfold map_filter.
    destruct (mapM f sl) as [ys|e]; simpl; [|reflexivity].
    destruct (truthy ev); [now rewrite <- app_assoc | reflexivity].
Qed.

(** With a positive chunk size the loop finishes within [length parsed - i]
    rounds and is one [map(...).filter(Boolean)] over the rest of the array. *)
Lemma chunk_loop_spec (f : value -> completion value) (parsed : list value) (cs : nat) :
  0 < cs ->
  forall fuel i out,
    length parsed - i <= fuel ->
    chunk_loop f fuel parsed cs i out
    = Some (r <- map_filter f (skipn i parsed) ;; Normal (out ++ r)).
Proof.
  intros Hcs. induction fuel as [|fuel IH]; intros i out Hfuel; simpl.
  - destruct (Nat.ltb_spec i (length parsed)) as [Hlt|Hge]; [lia|].
    rewrite skipn_all2 by lia. simpl. now rewrite app_nil_r.
  - destruct (Nat.ltb_spec i (length parsed)) as [Hlt|Hge].
    + rewrite push_events_spec. unfold slice.
      rewrite <- (firstn_skipn cs (skipn i parsed)) at 2.
      rewrite map_filter_app, skipn_skipn.
      destruct (map_filter f (firstn cs (skipn i parsed))) as [r1|e]; simpl;
        [|reflexivity].
      rewrite IH by lia. rewrite (Nat.add_comm cs i).
      destruct (map_filter f (skipn (i + cs) parsed)) as [r2|e]; simpl;
        [now rewrite app_assoc | reflexivity].
    + rewrite skipn_all2 by lia. simpl. now rewrite app_nil_r.
Qed.

Lemma run_chunks_spec (f : value -> completion value) (parsed : list value) (cs : nat) :
  0 < cs -> run_chunks f parsed cs = settle (map_filter f parsed).
Proof.
  intro Hcs. unfold run_chunks.
  rewrite (chunk_loop_spec f parsed Hcs) by lia. simpl.
  now destruct (map_filter f parsed).
Qed.

(** With chunk size 0 the index never advances: no amount of fuel ends the
    loop on a non-empty array. *)
Lemma chunk_loop_zero_diverges (f : value -> completion value) (x : value)
      (parsed : list value) (fuel : nat) (out : list value) :
  chunk_loop f fuel (x :: parsed) 0 0 out = None.
Proof. induction fuel as [|fuel IH]; simpl; [reflexivity | exact IH]. Qed.

(** *** C2 *)

Section Chunked.
Context {H : Host}.



(** For a string that is the JSON text of an array or an object the two paths
    agree as well, given that [JSON.parse] ignores the whitespace that [trim]
    removes. *)
Lemma chunked_equals_sync_on_json_text (s : jstring) (v : value) (opts : WebWorker.options) :
  JSON_parse s = Some v ->
  JSON_parse (trim s) = Some v ->
  WebWorker.looks_like_json (trim s) = true ->
  is_object v = true ->
  s <> [] ->
  0 < WebWorker.chunkSize opts ->
  WebWorker.parseInChunks (VStr s) opts = settle (WebWorker.parseSync (VStr s)).
Proof.
  intros Hs Ht Hlooks Hv Hne Hcs.
  unfold WebWorker.parseInChunks, WebWorker.parseSync. rewrite Hs.
  destruct s as [|c s]; [congruence|]. simpl truthy. simpl negb. cbv iota.
  rewrite Hlooks, Ht. unfold is_object in Hv.
  destruct v; simpl in Hv; rewrite ?andb_false_r in Hv; try discriminate; [|reflexivity].
  simpl isArray. simpl elements. simpl andb.
  destruct (WebWorker.chunkSize opts <? length xs); [|reflexivity].
  now rewrite run_chunks_spec by assumption.
Qed.

End Chunked.



(** ** Exceptions *)

(** [Number] throws on [unconvertible], on every host. *)
Lemma ToNumber_unconvertible (H : Host) : ToNumber unconvertible = Abrupt TypeError.
Proof. reflexivity. Qed.

(** *** C1 *)

(** C1 at its failing input: for the payload [{dtm: {toString: 1}}], given as
    an object or as JSON text, [Number(ev.dtm)] throws a TypeError that
    nothing catches, and both entry points end with a rejected promise
    instead of an array.  (With the default options this payload is parsed on
    the main thread, whatever the worker would do.) *)
Theorem C1_type_error_escapes :
  (forall (H : Host) (enc : value),
      Const.transformSnowplowPayload bad_event enc = Rejected TypeError)
  /\ (forall c replies,
        WebWorker.transformSnowplowPayload (H := Reference.host)
          bad_event WebWorker.DEFAULTS c replies = Rejected TypeError)
  /\ Const.transformSnowplowPayload (H := Reference.host)
       (VStr (json_text "{'dtm':{'toString':1}}")) VUndefined = Rejected TypeError
  /\ (forall c replies,
        WebWorker.transformSnowplowPayload (H := Reference.host)
          (VStr (json_text "{'dtm':{'toString':1}}")) WebWorker.DEFAULTS c replies
        = Rejected TypeError).
Proof.
  split; [intros; reflexivity|].
  split; [intros; vm_compute; reflexivity|].
  split; [vm_compute; reflexivity|].
  intros; vm_compute; reflexivity.
Qed.

(** ** Dispatch *)

Section Dispatch.
Context {H : Host}.

(** The heuristic of the source, as a proposition. *)
Lemma shouldUseWorker_iff (opts : WebWorker.options) (payload : value) :
  WebWorker.shouldUseWorker opts payload = true
  <->
  WebWorker.useWorker opts = true
  /\ ((WebWorker.topLevelCount payload <> 0
       /\ WebWorker.workerThresholdEvents opts <= WebWorker.topLevelCount payload)
      \/ (WebWorker.estimatedBytes payload <> 0
          /\ WebWorker.workerThresholdBytes opts <= WebWorker.estimatedBytes payload))%Z.
Proof.
  unfold WebWorker.shouldUseWorker.
  rewrite andb_true_iff, orb_true_iff, !andb_true_iff, !negb_true_iff,
    !Z.eqb_neq, !Z.leb_le.
  reflexivity.
Qed.

(** *** C4 *)

(** C4, as the code has it: the background path is taken exactly when the
    payload is truthy, the platform has [Worker], dispatch is enabled, and the
    estimated event count is non-zero and at least [workerThresholdEvents] or
    the estimated byte size is non-zero and at least [workerThresholdBytes]. *)
Theorem C4_background_iff (opts : WebWorker.options) (payload : value) :
  WebWorker.dispatch opts payload = WebWorker.Background
  <->
  truthy payload = true
  /\ Worker_defined = true
  /\ WebWorker.useWorker opts = true
  /\ ((WebWorker.topLevelCount payload <> 0
       /\ WebWorker.workerThresholdEvents opts <= WebWorker.topLevelCount payload)
      \/ (WebWorker.estimatedBytes payload <> 0
          /\ WebWorker.workerThresholdBytes opts <= WebWorker.estimatedBytes payload))%Z.
Proof.
  rewrite <- shouldUseWorker_iff. unfold WebWorker.dispatch.
  destruct (truthy payload); simpl.
  - destruct (WebWorker.shouldUseWorker opts payload), Worker_defined; simpl;
      split; try discriminate; try tauto.
    + now intros (_ & Hw & _).
    + now intros (_ & _ & Hs).
    + now intros (_ & Hw & _).
  - split; [discriminate | now intros (Ht & _)].
Qed.

(** The same decision read off [dispatch], for the lemmas below. *)
Lemma dispatch_background (opts : WebWorker.options) (payload : value) :
  WebWorker.dispatch opts payload = WebWorker.Background
  <-> truthy payload = true /\ Worker_defined = true
      /\ WebWorker.shouldUseWorker opts payload = true.
Proof.
  unfold WebWorker.dispatch.
  destruct (truthy payload), (WebWorker.shouldUseWorker opts payload), Worker_defined;
    simpl; split; try discriminate; try tauto;
    intros (E1 & E2 & E3); discriminate.
Qed.

(** With positive thresholds, on a platform with [Worker], this is the
    decision formula of the spec. *)
Theorem dispatch_with_positive_thresholds (opts : WebWorker.options) (payload : value) :
  truthy payload = true ->
  Worker_defined = true ->
  (0 < WebWorker.workerThresholdEvents opts)%Z ->
  (0 < WebWorker.workerThresholdBytes opts)%Z ->
  WebWorker.dispatch opts payload = WebWorker.Background
  <->
  WebWorker.useWorker opts = true
  /\ (WebWorker.workerThresholdEvents opts <= WebWorker.topLevelCount payload
      \/ WebWorker.workerThresholdBytes opts <= WebWorker.estimatedBytes payload)%Z.
Proof.
  intros Ht Hw He Hb. rewrite dispatch_background, shouldUseWorker_iff. intuition lia.
Qed.

(** The spec's examples with the default options: 101 elements go to the
    background, 99 elements under the byte threshold do not. *)
Lemma dispatch_101_elements (xs : list value) :
  Worker_defined = true ->
  length xs = 101 ->
  WebWorker.dispatch WebWorker.DEFAULTS (VArr xs) = WebWorker.Background.
Proof.
  intros Hw Hlen. apply dispatch_background. repeat split; try assumption.
  apply shouldUseWorker_iff. split; [reflexivity|].
  left. simpl. rewrite Hlen. lia.
Qed.

Lemma dispatch_99_elements (xs : list value) :
  length xs = 99 ->
  (WebWorker.estimatedBytes (VArr xs) < 51200)%Z ->
  WebWorker.dispatch WebWorker.DEFAULTS (VArr xs) = WebWorker.Foreground.
Proof.
  intros Hlen Hbytes. unfold WebWorker.dispatch.
  change (negb (truthy (VArr xs))) with false. cbv iota.
  destruct (WebWorker.shouldUseWorker WebWorker.DEFAULTS (VArr xs)) eqn:E; [|reflexivity].
  apply shouldUseWorker_iff in E as (_ & [[_ Hc]|[_ Hb]]).
  - simpl in Hc. rewrite Hlen in Hc. lia.
  - simpl WebWorker.workerThresholdBytes in Hb. lia.
Qed.

End Dispatch.

(** C4 fails as stated in two ways.  With [workerThresholdEvents = 0] the
    empty array has count 0 >= 0 and dispatch enabled, yet the guard
    [topLevelCount && ...] keeps it on the main thread.  And on a platform
    without [Worker] a 101-element array with the default options stays on the
    main thread too. *)
Lemma C4_guards_keep_main_thread :
  (WebWorker.useWorker threshold_zero = true
   /\ (WebWorker.workerThresholdEvents threshold_zero
       <=? WebWorker.topLevelCount (VArr []))%Z = true
   /\ WebWorker.dispatch (H := Reference.host) threshold_zero (VArr [])
      = WebWorker.Foreground)
  /\ (WebWorker.useWorker WebWorker.DEFAULTS = true
      /\ WebWorker.topLevelCount (VArr (repeat (VObj []) 101))
         = 101%Z
      /\ WebWorker.dispatch (H := Reference.legacy_host) WebWorker.DEFAULTS
           (VArr (repeat (VObj []) 101))
         = WebWorker.Foreground).
Proof. repeat split; vm_compute; reflexivity. Qed.

(** ** The worker session *)

Section Worker.
Context {H : Host}.

Import WebWorker.

(** Once [terminated] is set, no handler does anything. *)
Lemma on_event_terminated (body : value) (te : Z * worker_event) (st : session) :
  terminated st = true -> on_event body te st = st.
Proof.
  intro Ht. unfold on_event, onmessage, onerror.
  destruct (snd te); now rewrite Ht.
Qed.

Lemma ontimeout_terminated (body : value) (now : Z) (st : session) :
  terminated st = true -> ontimeout body now st = st.
Proof. intro Ht. unfold ontimeout. rewrite Ht. now destruct (timer_cleared st). Qed.

Lemma events_terminated (body : value) (replies : list (Z * worker_event)) (st : session) :
  terminated st = true -> fold_left (fun s x => on_event body x s) replies st = st.
Proof.
  intro Ht. induction replies as [|te replies IH]; simpl; [reflexivity|].
  now rewrite on_event_terminated.
Qed.

Lemma deliver_terminated (body : value) (deadline : Z)
      (replies : list (Z * worker_event)) (st : session) :
  terminated st = true -> deliver body deadline replies st = st.
Proof.
  intro Ht. induction replies as [|te replies IH]; simpl.
  - now apply ontimeout_terminated.
  - destruct (fst te <? deadline)%Z.
    + now rewrite on_event_terminated.
    + rewrite ontimeout_terminated by assumption.
      rewrite on_event_terminated by assumption. now apply events_terminated.
Qed.

Lemma resolve_fallback_terminated (body : value) (now : Z) (st : session) :
  terminated (resolve_fallback now body st) = terminated st.
Proof. unfold resolve_fallback. now destruct (parseSync body). Qed.

(** The first handler that runs on a live session terminates it. *)
Lemma on_event_terminates (body : value) (te : Z * worker_event) (st : session) :
  terminated (on_event body te st) = true.
Proof.
  unfold on_event, onmessage, onerror.
  destruct (snd te) as [d|]; destruct (terminated st) eqn:Ht; try assumption.
  - destruct (truthy (js_and d (get d "ok"))); [reflexivity|].
    now rewrite resolve_fallback_terminated.
  - now rewrite resolve_fallback_terminated.
Qed.

Lemma ontimeout_terminates (body : value) (now : Z) (st : session) :
  timer_cleared st = false -> terminated (ontimeout body now st) = true.
Proof.
  intro Hc. unfold ontimeout. rewrite Hc.
  destruct (terminated st) eqn:Ht; [assumption|].
  now rewrite resolve_fallback_terminated.
Qed.

(** So a session that starts live is decided by whichever comes first: the
    first worker event before the deadline, or the timer. *)
Lemma deliver_first (body : value) (deadline : Z)
      (replies : list (Z * worker_event)) (st : session) :
  timer_cleared st = false ->
  deliver body deadline replies st =
  match first_reply deadline replies with
  | Some te => on_event body te st
  | None => ontimeout body deadline st
  end.
Proof.
  intro Hc. destruct replies as [|te replies]; simpl; [reflexivity|].
  destruct (fst te <? deadline)%Z.
  - apply deliver_terminated, on_event_terminates.
  - rewrite on_event_terminated by now apply ontimeout_terminates.
    apply events_terminated. now apply ontimeout_terminates.
Qed.

(** A settled promise stays as it is. *)
Lemma resolve_settled (now : Z) (v : value) (st : session) :
  result st <> Pending ->
  result (resolve now v st) = result st /\ settled_at (resolve now v st) = settled_at st.
Proof. intro Hs. unfold resolve. simpl. now destruct (result st). Qed.

Lemma resolve_fallback_settled (body : value) (now : Z) (st : session) :
  result st <> Pending ->
  result (resolve_fallback now body st) = result st
  /\ settled_at (resolve_fallback now body st) = settled_at st.
Proof.
  intro Hs. unfold resolve_fallback.
  destruct (parseSync body); [now apply resolve_settled | split; reflexivity].
Qed.

Lemma on_event_settled (body : value) (te : Z * worker_event) (st : session) :
  result st <> Pending ->
  result (on_event body te st) = result st
  /\ settled_at (on_event body te st) = settled_at st.
Proof.
  intro Hs. unfold on_event, onmessage, onerror.
  destruct (snd te) as [d|]; destruct (terminated st); try (split; reflexivity).
  - destruct (truthy (js_and d (get d "ok"))).
    + exact (resolve_settled _ _ (cleanup (set_terminated st)) Hs).
    + exact (resolve_fallback_settled body _ (cleanup (set_terminated st)) Hs).
  - exact (resolve_fallback_settled body _ (cleanup (set_terminated st)) Hs).
Qed.

Lemma ontimeout_settled (body : value) (now : Z) (st : session) :
  result st <> Pending ->
  result (ontimeout body now st) = result st
  /\ settled_at (ontimeout body now st) = settled_at st.
Proof.
  intro Hs. unfold ontimeout.
  destruct (timer_cleared st); [split; reflexivity|].
  destruct (terminated st); [split; reflexivity|].
  exact (resolve_fallback_settled body _ (terminate_worker (set_terminated st)) Hs).
Qed.

Lemma deliver_settled (body : value) (deadline : Z)
      (replies : list (Z * worker_event)) (st : session) :
  timer_cleared st = false ->
  result st <> Pending ->
  result (deliver body deadline replies st) = result st
  /\ settled_at (deliver body deadline replies st) = settled_at st.
Proof.
  intros Hc Hs. rewrite deliver_first by assumption.
  destruct (first_reply deadline replies);
    [now apply on_event_settled | now apply ontimeout_settled].
Qed.

End Worker.

Section WorkerFallback.
Context {H : Host}.

Import WebWorker.

(** Worker fallback, where [parseSync] returns.  Whatever the platform does to
    the session short of a clean success (creation throws, postMessage throws,
    the worker posts an error or a message that is not ok, or the timer fires
    first), the promise is fulfilled with the result of [parseSync] on the
    original payload, no later than the deadline; on a session that was
    created, [resolve] is called exactly once and the worker is stopped; and
    when no worker event beats the timer the promise settles at the deadline. *)
Theorem worker_fallback_resolves (body : value) (opts : options) (c : creation)
        (replies : list (Z * worker_event)) (r : list value) :
  parseSync body = Normal r ->
  (0 <= workerTimeoutMs opts)%Z ->
  (c = Created ->
   match first_reply (workerTimeoutMs opts) replies with
   | Some te => clean_success (snd te) = false
   | None => True
   end) ->
  let st := parseWithWorker body opts c replies in
  result st = Fulfilled (VArr r)
  /\ (exists t, settled_at st = Some t /\ (t <= workerTimeoutMs opts)%Z)
  /\ (c = Created -> resolve_calls st = 1 /\ worker_stopped st = true)
  /\ (c = Created -> first_reply (workerTimeoutMs opts) replies = None ->
      settled_at st = Some (workerTimeoutMs opts)).
Proof.
  intros Hsync Hpos Hfirst. destruct c; simpl.
  - (* creation throws *)
    unfold executor_catch. rewrite Hsync. simpl.
    repeat split; try discriminate. now exists 0%Z.
  - (* postMessage throws: the catch settles, later callbacks change nothing *)
    assert (Hs : result (executor_catch body fresh) = Fulfilled (VArr r)
                 /\ settled_at (executor_catch body fresh) = Some 0%Z
                 /\ timer_cleared (executor_catch body fresh) = false).
    { unfold executor_catch. rewrite Hsync. now simpl. }
    destruct Hs as (Hres & Hat & Hc).
    destruct (deliver_settled body (workerTimeoutMs opts) replies
                (executor_catch body fresh) Hc) as [E1 E2].
    { rewrite Hres. discriminate. }
    rewrite E1, E2, Hres, Hat. repeat split; try discriminate. now exists 0%Z.
  - (* created *)
    specialize (Hfirst eq_refl). rewrite deliver_first by reflexivity.
    destruct (first_reply (workerTimeoutMs opts) replies) as [te|] eqn:Ef.
    + assert (Ht : (fst te < workerTimeoutMs opts)%Z).
      { destruct replies as [|te' replies]; [discriminate|]. simpl in Ef.
        destruct (Z.ltb_spec (fst te') (workerTimeoutMs opts)); [|discriminate].
        now injection Ef as <-. }
      unfold on_event, onmessage, onerror, resolve_fallback.
      destruct (snd te) as [d|]; simpl in Hfirst |- *.
      * rewrite Hfirst, Hsync. simpl.
        repeat split; try discriminate. exists (fst te). split; [reflexivity | lia].
      * rewrite Hsync. simpl.
        repeat split; try discriminate. exists (fst te). split; [reflexivity | lia].
    + unfold ontimeout, resolve_fallback. simpl. rewrite Hsync. simpl.
      repeat split. exists (workerTimeoutMs opts). split; [reflexivity | lia].
Qed.

(** Where [parseSync] throws, a session that was created never settles unless
    the worker reports a clean success: the throw ends the callback before
    [resolve] is called, and [terminated] is already set. *)
Lemma worker_fallback_throw (body : value) (opts : options)
      (replies : list (Z * worker_event)) (e : error) :
  parseSync body = Abrupt e ->
  match first_reply (workerTimeoutMs opts) replies with
  | Some te => clean_success (snd te) = false
  | None => True
  end ->
  result (parseWithWorker body opts Created replies) = Pending.
Proof.
  intros Hsync Hfirst. simpl. rewrite deliver_first by reflexivity.
  destruct (first_reply (workerTimeoutMs opts) replies) as [te|].
  - unfold on_event, onmessage, onerror, resolve_fallback.
    destruct (snd te) as [d|]; simpl in Hfirst |- *.
    + now rewrite Hfirst, Hsync.
    + now rewrite Hsync.
  - unfold ontimeout, resolve_fallback. simpl. now rewrite Hsync.
Qed.

End WorkerFallback.

(** *** C3 *)

(** C3 at its failing input.  For a payload on which [parseSync] throws (an
    event with timestamp [{toString: 1}]) the fallback [resolve(parseSync(bodyText))]
    throws inside the callback: after a timeout, a message that is not ok, or a
    worker error, the promise of [parseWithWorker] stays pending for ever; when
    creation fails, the throw in the executor's catch rejects it.  Through the
    entry point: a batch of 101 events, one of them bad, goes to the worker
    with the default options and the call never settles. *)
Theorem C3_fallback_throw_never_settles :
  (forall (H : Host) opts,
      WebWorker.result (WebWorker.parseWithWorker (VArr [bad_event]) opts WebWorker.Created [])
      = Pending)
  /\ (forall (H : Host) opts t,
        WebWorker.result (WebWorker.parseWithWorker (VArr [bad_event]) opts WebWorker.Created
                            [(t, WebWorker.OnMessage not_ok)])
        = Pending)
  /\ (forall (H : Host) opts t,
        WebWorker.result (WebWorker.parseWithWorker (VArr [bad_event]) opts WebWorker.Created
                            [(t, WebWorker.OnError)])
        = Pending)
  /\ (forall (H : Host) opts replies,
        WebWorker.result (WebWorker.parseWithWorker (VArr [bad_event]) opts
                            WebWorker.CreateThrows replies)
        = Rejected TypeError)
  /\ WebWorker.dispatch (H := Reference.host) WebWorker.DEFAULTS bad_batch
     = WebWorker.Background
  /\ WebWorker.transformSnowplowPayload (H := Reference.host) bad_batch WebWorker.DEFAULTS
       WebWorker.Created [(5%Z, WebWorker.OnMessage not_ok)]
     = Pending
  /\ WebWorker.transformSnowplowPayload (H := Reference.host) bad_batch WebWorker.DEFAULTS
       WebWorker.Created []
     = Pending.
Proof.
  split; [intros; eapply worker_fallback_throw; [reflexivity | exact I]|].
  split.
  { intros. eapply worker_fallback_throw; [reflexivity|].
    simpl. now destruct (t <? WebWorker.workerTimeoutMs opts)%Z. }
  split.
  { intros. eapply worker_fallback_throw; [reflexivity|].
    simpl. now destruct (t <? WebWorker.workerTimeoutMs opts)%Z. }
  split; [intros; reflexivity|].
  repeat split; vm_compute; reflexivity.
Qed.

(** A run of [worker_fallback_resolves]: the worker never answers, and the
    call resolves at the deadline with what [parseSync] returns. *)
Lemma worker_fallback_witness :
  exists r,
    WebWorker.parseSync (H := Reference.host) five_events = Normal r
    /\ WebWorker.result
         (WebWorker.parseWithWorker (H := Reference.host) five_events WebWorker.DEFAULTS
            WebWorker.Created [])
       = Fulfilled (VArr r)
    /\ WebWorker.settled_at
         (WebWorker.parseWithWorker (H := Reference.host) five_events WebWorker.DEFAULTS
            WebWorker.Created [])
       = Some 3000%Z.
Proof.
  eexists. split; [vm_compute; reflexivity|].
  destruct (@worker_fallback_resolves Reference.host five_events WebWorker.DEFAULTS
              WebWorker.Created [] _ eq_refl) as (E1 & _ & _ & E2).
  - vm_compute. discriminate.
  - intros _. exact I.
  - split; [exact E1 | now apply E2].
Defined.

(** ** The base64 round trip *)

Section ListInduction.
Variables (A : Type) (P : list A -> Prop).
Hypotheses (P0 : P []) (P1 : forall a, P [a]) (P2 : forall a b, P [a; b])
           (P3 : forall a b c l, P l -> P (a :: b :: c :: l)).

(** Induction three elements at a time, as [base64_encode] recurses. *)
Fixpoint list_ind3 (l : list A) : P l :=
  match l with
  | [] => P0
  | [a] => P1 a
  | [a; b] => P2 a b
  | a :: b :: c :: r => P3 a b c (list_ind3 r)
  end.

End ListInduction.

Lemma sextet_std (n : N) : is_std_char (Encoding.sextet n) = true.
Proof.
  unfold Encoding.sextet.
  assert (Hall : Forall (fun c => is_std_char c = true) Encoding.alphabet)
    by (apply Forall_forall, forallb_forall; vm_compute; reflexivity).
  rewrite Forall_forall in Hall. apply Hall, nth_In.
  change (length Encoding.alphabet) with (N.to_nat 64).
  pose proof (N.mod_lt n 64 ltac:(discriminate)). lia.
Qed.

(** The decoder's translation undoes the URL-safe alphabet on a standard
    character, and a translated character is never the padding. *)
Lemma urlsafe_char_back (c : code_unit) :
  is_std_char c = true ->
  let u := (if N.eqb (if N.eqb c 43 then 45 else c) 47 then 95
            else if N.eqb c 43 then 45 else c)%N in
  (if N.eqb (if N.eqb u 45 then 43 else u) 95 then 47
   else if N.eqb u 45 then 43 else u)%N = c
  /\ N.eqb u 61 = false.
Proof.
  unfold is_std_char. intro Hc. cbv zeta.
  destruct (N.eqb_spec c 43) as [E|H43]; [subst c; split; reflexivity|].
  destruct (N.eqb_spec c 47) as [E|H47]; [subst c; split; reflexivity|].
  destruct (N.eqb_spec c 45) as [E|H45]; [subst c; discriminate|].
  destruct (N.eqb_spec c 95) as [E|H95]; [subst c; discriminate|].
  split; [reflexivity|].
  destruct (N.eqb_spec c 61) as [E|H61]; [subst c; discriminate | reflexivity].
Qed.

Lemma from_to_urlsafe (body : jstring) :
  Forall (fun c => is_std_char c = true) body ->
  from_urlsafe (Encoding.to_urlsafe body) = body
  /\ Forall (fun c => N.eqb c (ch "=") = false) (Encoding.to_urlsafe body).
Proof.
  unfold from_urlsafe, Encoding.to_urlsafe, replace_all.
  induction 1 as [|c body Hc _ [IH1 IH2]]; simpl; [split; constructor|].
  destruct (urlsafe_char_back c Hc) as [E1 E2]. split.
  - f_equal; [exact E1 | exact IH1].
  - constructor; [exact E2 | exact IH2].
Qed.

Lemma skip_while_repeat (p : code_unit -> bool) (c : code_unit) (k : nat) (l : jstring) :
  p c = true -> skip_while p (repeat c k ++ l) = skip_while p l.
Proof. intro Hp. induction k as [|k IH]; simpl; [reflexivity | now rewrite Hp]. Qed.

Lemma skip_while_none (p : code_unit -> bool) (l : jstring) :
  Forall (fun c => p c = false) l -> skip_while p l = l.
Proof. destruct 1 as [|c l Hc _]; simpl; [reflexivity | now rewrite Hc]. Qed.

Lemma strip_padding_spec (body : jstring) (k : nat) :
  Forall (fun c => N.eqb c (ch "=") = false) body ->
  Encoding.strip_padding (body ++ repeat (ch "=") k) = body.
Proof.
  intro Hb. unfold Encoding.strip_padding.
  rewrite rev_app_distr, rev_repeat, skip_while_repeat by reflexivity.
  rewrite skip_while_none by now apply Forall_rev.
  apply rev_involutive.
Qed.

Lemma add_mod4 (n j : nat) : (n + j) mod 4 = (n mod 4 + j) mod 4.
Proof. now rewrite Nat.Div0.add_mod_idemp_l. Qed.

(** The padding loop puts back what was stripped. *)
Lemma pad4_restores (body : jstring) (k : nat) :
  k <= 2 -> (length body + k) mod 4 = 0 ->
  pad4 body = body ++ repeat (ch "=") k.
Proof.
  intros Hk Hmod. rewrite add_mod4 in Hmod.
  pose proof (Nat.mod_upper_bound (length body) 4 ltac:(lia)) as Hb.
  unfold pad4, pad_loop. rewrite !last_length.
  replace (S (S (length body))) with (length body + 2) by lia.
  replace (S (length body)) with (length body + 1) by lia.
  rewrite (add_mod4 (length body) 2), (add_mod4 (length body) 1).
  destruct (length body mod 4) as [|[|[|[|m]]]]; try lia;
    destruct k as [|[|[|k]]]; try lia; try discriminate; simpl;
    rewrite <- ?app_assoc; try reflexivity; now rewrite app_nil_r.
Qed.

Lemma pad4_aligned (t : jstring) : length t mod 4 = 0 -> pad4 t = t.
Proof. intro E. unfold pad4, pad_loop. now rewrite E. Qed.

(** The shape of standard base64: characters of the alphabet, then at most two
    padding characters, a multiple of four in all. *)
Lemma base64_encode_shape (bytes : list N) :
  exists body k,
    Encoding.base64_encode bytes = body ++ repeat (ch "=") k
    /\ Forall (fun c => is_std_char c = true) body
    /\ k <= 2
    /\ (length body + k) mod 4 = 0
    /\ (bytes <> [] -> body <> []).
Proof.
  induction bytes as [|a|a b|a b c rest (body & k & E & Hb & Hk & Hm & _)] using list_ind3.
  - exists [], 0. repeat split; try constructor; auto.
  - exists [Encoding.sextet (a / 4); Encoding.sextet ((a mod 4) * 16)], 2.
    repeat split; try lia; try discriminate.
    repeat constructor; apply sextet_std.
  - exists [Encoding.sextet (a / 4); Encoding.sextet ((a mod 4) * 16 + b / 16);
            Encoding.sextet ((b mod 16) * 4)], 1.
    repeat split; try lia; try discriminate.
    repeat constructor; apply sextet_std.
  - exists (Encoding.sextet (a / 4) :: Encoding.sextet ((a mod 4) * 16 + b / 16)
              :: Encoding.sextet ((b mod 16) * 4 + c / 64) :: Encoding.sextet (c mod 64)
              :: body), k.
    repeat split; try assumption; try discriminate.
    + simpl. now rewrite E.
    + repeat (constructor; [apply sextet_std|]). exact Hb.
    + simpl length.
      replace (S (S (S (S (length body)))) + k) with ((length body + k) + 1 * 4) by lia.
      now rewrite Nat.Div0.mod_add.
Qed.

(** What the decoders compute before [atob]: the standard base64 text again,
    whether the producer kept the padding or not. *)
Lemma decoder_restores_base64 (keep_padding : bool) (bytes : list N) :
  pad4 (from_urlsafe
          (if keep_padding then Encoding.to_urlsafe (Encoding.base64_encode bytes)
           else Encoding.strip_padding (Encoding.to_urlsafe (Encoding.base64_encode bytes))))
  = Encoding.base64_encode bytes.
Proof.
  destruct (base64_encode_shape bytes) as (body & k & -> & Hb & Hk & Hm & _).
  destruct (from_to_urlsafe Hb) as [Eback Hne].
  assert (Eto : Encoding.to_urlsafe (body ++ repeat (ch "=") k)
                = Encoding.to_urlsafe body ++ repeat (ch "=") k).
  { unfold Encoding.to_urlsafe, replace_all. now rewrite !map_app, !map_repeat. }
  rewrite Eto. destruct keep_padding.
  - assert (Efrom : from_urlsafe (Encoding.to_urlsafe body ++ repeat (ch "=") k)
                    = body ++ repeat (ch "=") k).
    { rewrite <- Eback at 2. unfold from_urlsafe, replace_all.
      now rewrite !map_app, !map_repeat. }
    rewrite Efrom. apply pad4_aligned. now rewrite length_app, repeat_length.
  - rewrite strip_padding_spec by assumption. rewrite Eback. now apply pad4_restores.
Qed.

Lemma utf8_encode_cons (c : code_unit) (r : jstring) :
  Encoding.utf8_encode (c :: r) =
  if (c <? 128)%N then c :: Encoding.utf8_encode r
  else if (c <? 2048)%N then
    (192 + c / 64)%N :: (128 + c mod 64)%N :: Encoding.utf8_encode r
  else if Encoding.is_high_surrogate c then
    match r with
    | d :: r' =>
        if Encoding.is_low_surrogate d then
          let cp := (65536 + (c - 55296) * 1024 + (d - 56320))%N in
          (240 + cp / 262144)%N :: (128 + (cp / 4096) mod 64)%N
            :: (128 + (cp / 64) mod 64)%N :: (128 + cp mod 64)%N :: Encoding.utf8_encode r'
        else 239%N :: 191%N :: 189%N :: Encoding.utf8_encode r
    | [] => [239; 191; 189]%N
    end
  else if Encoding.is_low_surrogate c then 239%N :: 191%N :: 189%N :: Encoding.utf8_encode r
  else
    (224 + (c / 4096) mod 16)%N :: (128 + (c / 64) mod 64)%N
      :: (128 + c mod 64)%N :: Encoding.utf8_encode r.
Proof. reflexivity. Qed.

Ltac byte_bound := cbv beta; zify; Z.to_euclidean_division_equations; lia.

Lemma utf8_encode_bytes_aux (n : nat) :
  forall s, length s <= n -> Forall (fun b => (b < 256)%N) (Encoding.utf8_encode s).
Proof.
  induction n as [|n IH]; intros [|c r] Hlen; try (constructor; fail);
    [simpl in Hlen; lia|].
  assert (Hr : Forall (fun b => (b < 256)%N) (Encoding.utf8_encode r))
    by (apply IH; simpl in Hlen; lia).
  rewrite utf8_encode_cons.
  destruct (N.ltb_spec c 128); [constructor; [lia | exact Hr]|].
  destruct (N.ltb_spec c 2048).
  { constructor; [byte_bound|]. constructor; [byte_bound | exact Hr]. }
  unfold Encoding.is_high_surrogate, Encoding.is_low_surrogate.
  destruct (N.leb_spec 55296 c); destruct (N.leb_spec c 56319); cbn [andb].
  - destruct r as [|d r']; [repeat (constructor; [reflexivity|]); constructor|].
    assert (Hr' : Forall (fun b => (b < 256)%N) (Encoding.utf8_encode r'))
      by (apply IH; simpl in Hlen; lia).
    destruct (N.leb_spec 56320 d); destruct (N.leb_spec d 57343); cbn [andb];
      try (repeat (constructor; [reflexivity|]); exact Hr).
    cbv zeta. repeat (constructor; [byte_bound|]). exact Hr'.
  - destruct (N.leb_spec 56320 c); destruct (N.leb_spec c 57343); cbn [andb];
      try (repeat (constructor; [reflexivity|]); exact Hr);
      repeat (constructor; [byte_bound|]); exact Hr.
  - destruct (N.leb_spec 56320 c); destruct (N.leb_spec c 57343); cbn [andb];
      try (repeat (constructor; [reflexivity|]); exact Hr);
      repeat (constructor; [byte_bound|]); exact Hr.
  - destruct (N.leb_spec 56320 c); destruct (N.leb_spec c 57343); cbn [andb];
      try (repeat (constructor; [reflexivity|]); exact Hr);
      repeat (constructor; [byte_bound|]); exact Hr.
Qed.

(** UTF-8 bytes are bytes. *)
Lemma utf8_encode_bytes (s : jstring) :
  Forall (fun b => (b < 256)%N) (Encoding.utf8_encode s).
Proof. apply (@utf8_encode_bytes_aux (length s)). lia. Qed.

Lemma map_mod256_bytes (l : list N) :
  Forall (fun b => (b < 256)%N) l -> map (fun c => (c mod 256)%N) l = l.
Proof.
  induction 1 as [|b l Hb _ IH]; simpl; [reflexivity|].
  now rewrite N.mod_small, IH.
Qed.

Lemma utf8_encode_nonempty (s : jstring) : s <> [] -> Encoding.utf8_encode s <> [].
Proof.
  destruct s as [|c r]; [congruence|]. intros _. rewrite utf8_encode_cons.
  destruct (c <? 128)%N; [discriminate|].
  destruct (c <? 2048)%N; [discriminate|].
  destruct (Encoding.is_high_surrogate c).
  - destruct r as [|d r']; [discriminate|].
    destruct (Encoding.is_low_surrogate d); discriminate.
  - destruct (Encoding.is_low_surrogate c); discriminate.
Qed.

Lemma base64_encode_nonempty (bytes : list N) :
  bytes <> [] -> Encoding.base64_encode bytes <> [].
Proof. destruct bytes as [|a [|b [|c r]]]; [congruence | discriminate ..]. Qed.

Section RoundTrip.
Context {H : Host}.

(** *** C5 *)

(** C5: let [txt] be [JSON.stringify(v)] for a value that [JSON.parse] reads
    back ([v] is JSON-serializable), and let the platform's builtins invert the
    encoders on this text: [atob] gives back the UTF-8 bytes from their
    standard base64, and decoding those bytes as UTF-8 (TextDecoder, or
    decodeURIComponent on the percent-encoded bytes) gives back [txt].  Then
    both base64-JSON decoders of the repository return exactly [v] on the
    URL-safe base64 of [txt], with or without padding.  The decoders' own
    steps are the translation of the alphabet and the padding to a multiple of
    four, which restore the standard base64 text ([decoder_restores_base64]). *)
Theorem C5_base64_json_round_trip (v : value) (txt : jstring) (keep_padding : bool) :
  JSON_stringify v = Some txt ->
  JSON_parse txt = Some v ->
  txt <> [] ->
  atob_defined = true ->
  atob (Encoding.base64_encode (Encoding.utf8_encode txt)) = Some (Encoding.utf8_encode txt) ->
  TextDecoder_decode (Encoding.utf8_encode txt) = txt ->
  decodeURIComponent (percent_encode (Encoding.utf8_encode txt)) = Some txt ->
  Const.tryDecodeBase64JsonSafe (VStr (Encoding.encode_urlsafe keep_padding txt)) = v
  /\ WebWorker.tryDecodeBase64Json (VStr (Encoding.encode_urlsafe keep_padding txt)) = v.
Proof.
  intros _ Hparse Htxt Hdef Hatob Hdecode Huri.
  pose proof (utf8_encode_nonempty Htxt) as Hbytes.
  pose proof (decoder_restores_base64 keep_padding (Encoding.utf8_encode txt)) as Hback.
  fold (Encoding.encode_urlsafe keep_padding txt) in Hback.
  unfold from_urlsafe in Hback.
  destruct (Encoding.encode_urlsafe keep_padding txt) as [|c s] eqn:Es.
  { exfalso. apply (base64_encode_nonempty Hbytes). now rewrite <- Hback. }
  split.
  - unfold Const.tryDecodeBase64JsonSafe. rewrite Hback, Hdef, Hatob.
    destruct (Encoding.utf8_encode txt) as [|b bs] eqn:Eb; [congruence|].
    unfold Const.binaryStringToUtf8. rewrite Huri.
    rewrite map_mod256_bytes by (rewrite <- Eb; apply utf8_encode_bytes).
    rewrite Hdecode.
    assert (E : Const.tryParseJsonSafe (VStr txt) = v).
    { unfold Const.tryParseJsonSafe.
      change (JSON_parse_value (VStr txt)) with (JSON_parse txt). now rewrite Hparse. }
    now destruct TextDecoder_defined.
  - assert (E : WebWorker.base64DecodeToString (VStr (c :: s)) = VStr txt).
    { unfold WebWorker.base64DecodeToString.
      change (negb (truthy (VStr (c :: s)))) with false. cbv iota.
      rewrite Hback. unfold WebWorker.call_atob. now rewrite Hdef, Hatob, Huri. }
    unfold WebWorker.tryDecodeBase64Json. rewrite E.
    change (JSON_parse_value (VStr txt)) with (JSON_parse txt). rewrite Hparse.
    destruct txt as [|t txt']; [congruence | reflexivity].
Qed.

End RoundTrip.

(** A run of [C5_base64_json_round_trip] on the reference host, padding
    stripped. *)
Lemma C5_witness :
  Const.tryDecodeBase64JsonSafe (H := Reference.host)
    (VStr (Encoding.encode_urlsafe false greeting_text)) = greeting
  /\ WebWorker.tryDecodeBase64Json (H := Reference.host)
       (VStr (Encoding.encode_urlsafe false greeting_text)) = greeting.
Proof.
  apply (@C5_base64_json_round_trip Reference.host greeting greeting_text false);
    try (vm_compute; reflexivity).
  vm_compute. discriminate.
Defined.

(** ** Further runs *)

(** A run of [envelope_total] on the envelope of three events. *)
Lemma envelope_total_witness :
  exists out,
    Const.parseSync (H := Reference.host)
      (VObj [(js "schema", str "x"); (js "data", VArr envelope3)]) VUndefined = Normal out
    /\ length out = 3.
Proof.
  apply (@envelope_total Reference.host
           (VObj [(js "schema", str "x"); (js "data", VArr envelope3)]) VUndefined
           envelope3 eq_refl eq_refl).
  repeat constructor.
Defined.

(** A run of [dispatch_with_positive_thresholds]: 101 events and the default
    options on the reference host. *)
Lemma dispatch_witness :
  WebWorker.dispatch (H := Reference.host) WebWorker.DEFAULTS bad_batch = WebWorker.Background
  <->
  WebWorker.useWorker WebWorker.DEFAULTS = true
  /\ (WebWorker.workerThresholdEvents WebWorker.DEFAULTS <= WebWorker.topLevelCount bad_batch
      \/ WebWorker.workerThresholdBytes WebWorker.DEFAULTS
         <= WebWorker.estimatedBytes (H := Reference.host) bad_batch)%Z.
Proof.
  apply (@dispatch_with_positive_thresholds Reference.host WebWorker.DEFAULTS bad_batch);
    reflexivity.
Defined.

(** With [chunkSize: 0] in the options the chunked loop never advances: on a
    non-empty array the call never settles. *)
Theorem chunk_size_zero_never_settles (H : Host) (x : value) (xs : list value)
        (opts : WebWorker.options) :
  WebWorker.chunkSize opts = 0 ->
  WebWorker.parseInChunks (VArr (x :: xs)) opts = Pending.
Proof.
  intro Hcs. unfold WebWorker.parseInChunks. rewrite Hcs.
  change (isArray (VArr (x :: xs)) && (0 <? length (elements (VArr (x :: xs))))) with true.
  cbv iota. unfold run_chunks. simpl elements.
  now rewrite chunk_loop_zero_diverges.
Qed.

(** A run of [chunk_size_zero_never_settles]. *)
Lemma chunk_size_zero_witness :
  WebWorker.parseInChunks (H := Reference.host) (VArr [VObj []]) chunks_of_zero = Pending.
Proof. apply (@chunk_size_zero_never_settles Reference.host); reflexivity. Defined.

(** * Further properties *)

(** ** const.js: the entry point and the batch *)

Section ConstBatch.
Context {H : Host}.

Lemma parse_non_object (ev enc : value) :
  is_object ev = false -> Const.parseSnowplowEvent ev enc = Normal VNull.
Proof.
  unfold is_object, Const.parseSnowplowEvent. intro E.
  destruct (truthy ev); destruct (typeof_is_object ev); try discriminate; reflexivity.
Qed.

(** What [map(...).filter(Boolean)] amounts to: the elements that are not
    non-null objects are dropped, every other element is normalized. *)
Lemma map_filter_objects (enc : value) (xs : list value) :
  map_filter (fun ev => Const.parseSnowplowEvent ev enc) xs
  = mapM (fun ev => Const.parseSnowplowEvent ev enc) (filter is_object xs).
Proof.
  unfold map_filter. induction xs as [|x xs IH]; [reflexivity|]. simpl.
  destruct (is_object x) eqn:Ex.
  - simpl. destruct (Const.parseSnowplowEvent x enc) as [y|e] eqn:Ey; [|reflexivity].
    simpl. rewrite <- IH.
    destruct (mapM (fun ev => Const.parseSnowplowEvent ev enc) xs) as [ys|e];
      [|reflexivity].
    simpl. now rewrite (event_of_object_is_truthy x enc Ex Ey).
  - rewrite (parse_non_object x enc Ex). simpl. rewrite <- IH.
    now destruct (mapM (fun ev => Const.parseSnowplowEvent ev enc) xs).
Qed.

(** A bare array: [parseSync] normalizes, in order, exactly the elements that
    are non-null objects and drops every other element (null, numbers,
    strings, booleans); a throw of an element is the throw of the batch. *)
Theorem bare_array_drops_non_objects (xs : list value) (enc : value) :
  Const.parseSync (VArr xs) enc
  = mapM (fun ev => Const.parseSnowplowEvent ev enc) (filter is_object xs).
Proof.
  change (Const.parseSync (VArr xs) enc)
    with (map_filter (fun ev => Const.parseSnowplowEvent ev enc) xs).
  apply map_filter_objects.
Qed.

Lemma map_filter_truthy (f : value -> completion value) (l out : list value) :
  map_filter f l = Normal out -> Forall (fun e => truthy e = true) out.
Proof.
  unfold map_filter. intro E. apply bind_normal in E as (es & _ & E).
  injection E as <-. apply Forall_forall. intros e He.
  now apply filter_In in He as [_ He].
Qed.

Lemma parse_resolved_truthy (parsed enc : value) (out : list value) :
  Const.parse_resolved parsed enc = Normal out ->
  Forall (fun e => truthy e = true) out.
Proof.
  unfold Const.parse_resolved.
  destruct (truthy parsed && typeof_is_object parsed) eqn:Eobj.
  - destruct (truthy (get parsed "schema") && isArray (get parsed "data"));
      [apply map_filter_truthy|].
    destruct (isArray parsed); [apply map_filter_truthy|].
    destruct (truthy (get parsed "unstruct_event")).
    + intro E. injection E as <-. now repeat constructor.
    + intro E. apply bind_normal in E as (ev & Eev & E). injection E as <-.
      constructor; [|constructor].
      now apply (event_of_object_is_truthy parsed enc Eobj).
  - intro E. injection E as <-. now repeat constructor.
Qed.

(** No batch of [parseSync] holds a null (or any falsy) element, whatever the
    payload: strings, envelopes, bare arrays, wrappers and single events. *)
Theorem parseSync_has_no_null_event (payload enc : value) (out : list value) :
  Const.parseSync payload enc = Normal out ->
  Forall (fun e => truthy e = true) out.
Proof.
  unfold Const.parseSync. destruct (is_nullish payload).
  { intro E. injection E as <-. constructor. }
  destruct payload; try apply parse_resolved_truthy.
  destruct (Const.looks_like_json (trim s)).
  - destruct (negb (is_null (Const.tryParseJsonSafe (VStr (trim s)))));
      [apply parse_resolved_truthy|].
    destruct (negb (is_null (Const.tryDecodeBase64JsonSafe (VStr (trim s)))));
      [apply parse_resolved_truthy|].
    intro E. injection E as <-. now repeat constructor.
  - destruct (negb (is_null (Const.tryDecodeBase64JsonSafe (VStr (trim s)))));
      [apply parse_resolved_truthy|].
    destruct (negb (is_null (Const.tryParseJsonSafe (VStr (trim s)))));
      [apply parse_resolved_truthy|].
    intro E. injection E as <-. now repeat constructor.
Qed.


End ConstBatch.

(** A run of [parseSync_has_no_null_event]: the null among five elements is
    dropped. *)
Lemma parseSync_has_no_null_event_witness :
  exists out,
    Const.parseSync (H := Reference.host) five_events VUndefined = Normal out
    /\ length out = 4
    /\ Forall (fun e => truthy e = true) out.
Proof.
  eexists. split; [vm_compute; reflexivity|]. split; [reflexivity|].
  apply (@parseSync_has_no_null_event Reference.host five_events VUndefined).
  vm_compute. reflexivity.
Defined.


(** ** const.js: one event record *)

Section ConstRecord.
Context {H : Host}.

Lemma js_or_truthy_r (a b : value) : truthy b = true -> truthy (js_or a b) = true.
Proof. intro Hb. unfold js_or. now destruct (truthy a) eqn:Ea. Qed.

(** Every record of [parseSnowplowEvent] keeps the raw input under [raw], has
    a truthy [eventType] (the discriminator, or ['unknown']) and a number under
    [ts], in all four branches. *)
Theorem event_record_invariants (ev enc r : value) :
  Const.parseSnowplowEvent ev enc = Normal r ->
  r <> VNull ->
  get r "raw" = ev
  /\ truthy (get r "eventType") = true
  /\ exists n, get r "ts" = VNum n.
Proof.
  intros E Hr. apply parse_event_inv in E as [[_ ->] | (_ & cm & Ecm & ->)];
    [congruence|].
  apply common_inv in Ecm as (ts & ->).
  destruct (Const.shape_of ev);
    (split; [reflexivity | split; [|exists ts; reflexivity]]); try reflexivity.
  change (truthy (js_or (js_or (get ev "e") (get ev "event")) (str "unknown")) = true).
  now apply js_or_truthy_r.
Qed.

(** The [url] of a record is [ev.url || ev.pageUrl || null] in every branch.
    The page-view branch writes [url: ev.pageUrl || ev.url || null] first, but
    the spread of [common] after it overwrites the field: when an event has
    both, [ev.url] wins. *)
Theorem record_url_prefers_url (ev enc r : value) :
  Const.parseSnowplowEvent ev enc = Normal r ->
  r <> VNull ->
  get r "url" = js_or (js_or (get ev "url") (get ev "pageUrl")) VNull.
Proof.
  intros E Hr. apply parse_event_inv in E as [[_ ->] | (_ & cm & Ecm & ->)];
    [congruence|].
  apply common_inv in Ecm as (ts & ->).
  destruct (Const.shape_of ev); reflexivity.
Qed.

Lemma first_carrier_wins (ev enc c : value) (rest : list value) :
  Const.carrier_order ev enc = c :: rest ->
  truthy (Const.tryNormalize c) = true ->
  Const.decode_carrier ev enc = Const.tryNormalize c.
Proof.
  intros Horder Hc. unfold Const.decode_carrier. rewrite Horder.
  unfold Const.try_carriers. rewrite Hc. cbv iota. now rewrite Hc.
Qed.

Lemma json_like_is_truthy (v : value) :
  Const.isLikelyJsonString v = true -> truthy v = true.
Proof.
  unfold Const.isLikelyJsonString.
  destruct v as [| | | |[|c s]| |]; try discriminate; reflexivity.
Qed.

(** With [encodeBase64 === true] the base64 carrier [ue_px] is tried first:
    when it decodes, it is the carrier, whatever [ue_pr] holds. *)
Theorem explicit_base64_preference (ev : value) :
  truthy (Const.tryNormalize (get ev "ue_px")) = true ->
  Const.decode_carrier ev (VBool true) = Const.tryNormalize (get ev "ue_px").
Proof. intro Hpx. eapply first_carrier_wins; [reflexivity | exact Hpx]. Qed.

(** With any other [encodeBase64], the inline carrier [ue_pr] is tried first
    when the option is truthy or [ue_pr] looks like JSON: when it decodes, it
    is the carrier, whatever [ue_px] holds. *)
Theorem inline_json_preference (ev enc : value) :
  enc <> VBool true ->
  truthy enc = true \/ Const.isLikelyJsonString (get ev "ue_pr") = true ->
  truthy (Const.tryNormalize (get ev "ue_pr")) = true ->
  Const.decode_carrier ev enc = Const.tryNormalize (get ev "ue_pr").
Proof.
  intros Henc Hpref Hpr.
  assert (Horder : exists rest, Const.carrier_order ev enc = get ev "ue_pr" :: rest).
  { assert (E : Const.carrier_order ev enc
                = if truthy enc
                  then [get ev "ue_pr"; get ev "ue_px";
                        js_or (js_or (get ev "unstruct_event") (get ev "unstruct"))
                              (get ev "ue")]
                  else Const.carrier_order ev VUndefined)
      by (destruct enc as [| |[|]| | | |]; try reflexivity; congruence).
    rewrite E. destruct (truthy enc); [now eexists|].
    destruct Hpref as [Ht|Hj]; [discriminate|].
    unfold Const.carrier_order. simpl truthy. cbv iota.
    rewrite (json_like_is_truthy _ Hj), Hj. now eexists. }
  destruct Horder as (rest & Horder). now apply (first_carrier_wins ev enc Horder).
Qed.

(** When no carrier decodes, nothing is dropped: the payload of the record is
    the raw event itself, and its schema is null. *)
Theorem undecodable_carrier_keeps_event (ev enc : value) (cm : list (jstring * value)) :
  Const.shape_of ev = Const.SelfDescribing ->
  Const.common ev = Normal cm ->
  truthy (Const.decode_carrier ev enc) = false ->
  exists r,
    Const.parseSnowplowEvent ev enc = Normal r
    /\ get r "eventType" = str "unstruct"
    /\ get r "schema" = VNull
    /\ get r "payload" = ev.
Proof.
  intros Hshape Hcm Hdec.
  unfold Const.parseSnowplowEvent.
  pose proof (self_describing_is_object ev Hshape) as Hobj.
  apply andb_true_iff in Hobj as [-> ->]. simpl negb. simpl orb. cbv iota.
  rewrite Hcm. simpl bind. rewrite Hshape.
  eexists. split; [reflexivity|].
  apply common_inv in Hcm as (ts & ->).
  unfold Const.self_describing_event. rewrite Hdec. repeat split.
Qed.

(** The [property] of a structured event whose [se_pr] is a string: the parsed
    JSON when the string parses to a truthy value, else the string itself
    (null when it is empty). *)
Theorem structured_property_of_string (ev enc r : value) (s : jstring) :
  Const.shape_of ev = Const.Structured ->
  get ev "se_pr" = VStr s ->
  Const.parseSnowplowEvent ev enc = Normal r ->
  get r "property" =
    match JSON_parse s with
    | Some v => if truthy v then v else js_or (VStr s) VNull
    | None => js_or (VStr s) VNull
    end.
Proof.
  intros Hshape Hpr E.
  assert (Hobj : truthy ev && typeof_is_object ev = true)
    by (destruct ev; try reflexivity; vm_compute in Hshape; discriminate).
  apply parse_event_inv in E as [[E _] | (_ & cm & Ecm & ->)]; [congruence|].
  apply common_inv in Ecm as (ts & ->). rewrite Hshape.
  change (get (Const.structured_event ev _) "property")
    with (js_or (if typeof_is_string (get ev "se_pr")
                 then js_or (Const.tryParseJsonSafe (get ev "se_pr")) (get ev "se_pr")
                 else get ev "se_pr") VNull).
  rewrite Hpr. simpl typeof_is_string. cbv iota.
  unfold Const.tryParseJsonSafe.
  change (JSON_parse_value (VStr s)) with (JSON_parse s).
  destruct (JSON_parse s) as [v|].
  - unfold js_or at 2. destruct (truthy v) eqn:Ev; [|reflexivity].
    unfold js_or. now rewrite Ev.
  - reflexivity.
Qed.

End ConstRecord.

(** A page view with both [url] and [pageUrl], and a self-describing event
    with both carriers. *)
Lemma event_record_invariants_witness :
  exists r,
    Const.parseSnowplowEvent (H := Reference.host)
      (VObj [(js "e", str "pv"); (js "pageUrl", str "/b"); (js "url", str "/a")])
      VUndefined = Normal r
    /\ get r "raw"
       = VObj [(js "e", str "pv"); (js "pageUrl", str "/b"); (js "url", str "/a")]
    /\ truthy (get r "eventType") = true
    /\ exists n, get r "ts" = VNum n.
Proof.
  eexists. split; [vm_compute; reflexivity|].
  apply (@event_record_invariants Reference.host
           (VObj [(js "e", str "pv"); (js "pageUrl", str "/b"); (js "url", str "/a")])
           VUndefined); [vm_compute; reflexivity | discriminate].
Defined.

Lemma record_url_prefers_url_witness :
  exists r,
    Const.parseSnowplowEvent (H := Reference.host)
      (VObj [(js "e", str "pv"); (js "pageUrl", str "/b"); (js "url", str "/a")])
      VUndefined = Normal r
    /\ get r "url" = str "/a".
Proof.
  eexists. split; [vm_compute; reflexivity|].
  apply (@record_url_prefers_url Reference.host
           (VObj [(js "e", str "pv"); (js "pageUrl", str "/b"); (js "url", str "/a")])
           VUndefined); [vm_compute; reflexivity | discriminate].
Defined.

Lemma explicit_base64_preference_witness :
  Const.decode_carrier (H := Reference.host)
    (VObj [(js "e", str "ue"); (js "ue_pr", VStr (json_text "{'b':2}"));
           (js "ue_px", str "eyJhIjoxfQ")]) (VBool true)
  = Const.tryNormalize (H := Reference.host) (str "eyJhIjoxfQ").
Proof.
  apply (@explicit_base64_preference Reference.host
           (VObj [(js "e", str "ue"); (js "ue_pr", VStr (json_text "{'b':2}"));
                  (js "ue_px", str "eyJhIjoxfQ")])).
  vm_compute. reflexivity.
Defined.

Lemma inline_json_preference_witness :
  Const.decode_carrier (H := Reference.host)
    (VObj [(js "e", str "ue"); (js "ue_pr", VStr (json_text "{'b':2}"));
           (js "ue_px", str "eyJhIjoxfQ")]) VUndefined
  = Const.tryNormalize (H := Reference.host) (VStr (json_text "{'b':2}")).
Proof.
  apply (@inline_json_preference Reference.host
           (VObj [(js "e", str "ue"); (js "ue_pr", VStr (json_text "{'b':2}"));
                  (js "ue_px", str "eyJhIjoxfQ")]) VUndefined).
  - discriminate.
  - right. vm_compute. reflexivity.
  - vm_compute. reflexivity.
Defined.

Lemma undecodable_carrier_witness :
  exists r,
    Const.parseSnowplowEvent (H := Reference.host)
      (VObj [(js "e", str "ue"); (js "ue_px", str "!!!")]) VUndefined = Normal r
    /\ get r "eventType" = str "unstruct"
    /\ get r "schema" = VNull
    /\ get r "payload" = VObj [(js "e", str "ue"); (js "ue_px", str "!!!")].
Proof.
  eapply (@undecodable_carrier_keeps_event Reference.host
            (VObj [(js "e", str "ue"); (js "ue_px", str "!!!")]) VUndefined).
  all: vm_compute; reflexivity.
Defined.

Lemma structured_property_witness :
  exists r,
    Const.parseSnowplowEvent (H := Reference.host)
      (VObj [(js "e", str "se"); (js "se_pr", VStr (json_text "{'k':1}"))])
      VUndefined = Normal r
    /\ get r "property" = VObj [(js "k", VNum num_one)].
Proof.
  eexists. split; [vm_compute; reflexivity|].
  erewrite (@structured_property_of_string Reference.host
              (VObj [(js "e", str "se"); (js "se_pr", VStr (json_text "{'k':1}"))])
              VUndefined).
  2: vm_compute; reflexivity.
  2: vm_compute; reflexivity.
  2: vm_compute; reflexivity.
  vm_compute. reflexivity.
Defined.

(** ** parseWithWebWorker.js: the worker session *)

Section WorkerSession.
Context {H : Host}.

Import WebWorker.

Lemma first_reply_before (deadline : Z) (replies : list (Z * worker_event))
      (te : Z * worker_event) :
  first_reply deadline replies = Some te -> (fst te <? deadline)%Z = true.
Proof.
  destruct replies as [|te' replies]; [discriminate|]. simpl.
  destruct (fst te' <? deadline)%Z eqn:E; [|discriminate].
  intro E'. now injection E' as <-.
Qed.

(** A session with a worker is decided by the first reply alone, and only if
    it beats the timer: every later message or error event, and every event
    after the timeout, leaves the session as it is. *)
Theorem worker_session_depends_on_first_reply
        (body : value) (opts : options) (replies : list (Z * worker_event)) :
  parseWithWorker body opts Created replies
  = parseWithWorker body opts Created
      (match first_reply (workerTimeoutMs opts) replies with
       | Some te => [te]
       | None => []
       end).
Proof.
  unfold parseWithWorker. rewrite !deliver_first by reflexivity.
  destruct (first_reply (workerTimeoutMs opts) replies) as [te|] eqn:E;
    [|reflexivity].
  simpl. now rewrite (first_reply_before _ _ E).
Qed.

(** A clean success: when the first reply beats the timer and is a message
    [{ok: true, ...}], the promise is fulfilled with the message's [result] as
    it is, at the time of the message, with one call of [resolve] and the
    timer, the worker and the object URL released.  This holds for every body,
    also for one on which the main thread's [parseSync] would throw. *)
Theorem worker_clean_success (body : value) (opts : options)
        (replies : list (Z * worker_event)) (t : Z) (d : value) :
  first_reply (workerTimeoutMs opts) replies = Some (t, OnMessage d) ->
  truthy (js_and d (get d "ok")) = true ->
  let st := parseWithWorker body opts Created replies in
  result st = Fulfilled (get d "result")
  /\ settled_at st = Some t
  /\ resolve_calls st = 1
  /\ timer_cleared st = true /\ worker_stopped st = true /\ url_revoked st = true.
Proof.
  intros Hfirst Hok. simpl. rewrite deliver_first by reflexivity. rewrite Hfirst.
  unfold on_event, onmessage. simpl. rewrite Hok. simpl. repeat split.
Qed.

(** How a session with a worker ends, whatever the replies: the worker is
    stopped and [resolve] is called at most once.  The object URL of the worker
    script is revoked only when a reply beats the timer: the timeout path stops
    the worker and leaves the URL allocated. *)
Theorem worker_session_teardown
        (body : value) (opts : options) (replies : list (Z * worker_event)) :
  let st := parseWithWorker body opts Created replies in
  terminated st = true
  /\ worker_stopped st = true
  /\ resolve_calls st <= 1
  /\ url_revoked st = match first_reply (workerTimeoutMs opts) replies with
                      | Some _ => true
                      | None => false
                      end.
Proof.
  simpl. rewrite deliver_first by reflexivity.
  destruct (first_reply (workerTimeoutMs opts) replies) as [te|].
  - unfold on_event, onmessage, onerror, resolve_fallback.
    destruct (snd te) as [d|]; simpl.
    + destruct (truthy (js_and d (get d "ok"))); [simpl; repeat split; lia|].
      destruct (parseSync body); simpl; repeat split; lia.
    + destruct (parseSync body); simpl; repeat split; lia.
  - unfold ontimeout, resolve_fallback. simpl.
    destruct (parseSync body); simpl; repeat split; lia.
Qed.

End WorkerSession.

(** A worker answers at 5 ms for a body whose timestamp cannot be converted;
    the later error event changes nothing. *)
Lemma worker_clean_success_witness :
  let st := WebWorker.parseWithWorker (H := Reference.host) (VArr [bad_event])
              WebWorker.DEFAULTS WebWorker.Created
              [(5%Z, WebWorker.OnMessage
                       (VObj [(js "ok", VBool true); (js "result", VArr [foo1])]));
               (7%Z, WebWorker.OnError)] in
  WebWorker.result st = Fulfilled (VArr [foo1])
  /\ WebWorker.settled_at st = Some 5%Z
  /\ WebWorker.resolve_calls st = 1
  /\ WebWorker.timer_cleared st = true /\ WebWorker.worker_stopped st = true
  /\ WebWorker.url_revoked st = true.
Proof.
  apply (@worker_clean_success Reference.host (VArr [bad_event]) WebWorker.DEFAULTS
           [(5%Z, WebWorker.OnMessage
                    (VObj [(js "ok", VBool true); (js "result", VArr [foo1])]));
            (7%Z, WebWorker.OnError)] 5%Z
           (VObj [(js "ok", VBool true); (js "result", VArr [foo1])]));
    reflexivity.
Defined.

(** ** parseWithWebWorker.js: the byte estimate *)

Lemma utf8_encode_length_aux (n : nat) :
  forall s, length s <= n ->
            length s <= length (Encoding.utf8_encode s) <= 3 * length s.
Proof.
  induction n as [|n IH]; intros [|c r] Hlen;
    [simpl; lia | simpl in Hlen; lia | simpl; lia |].
  assert (Hr : length r <= length (Encoding.utf8_encode r) <= 3 * length r)
    by (apply IH; simpl in Hlen; lia).
  rewrite utf8_encode_cons.
  destruct (c <? 128)%N; [cbn [length]; lia|].
  destruct (c <? 2048)%N; [cbn [length]; lia|].
  destruct (Encoding.is_high_surrogate c).
  - destruct r as [|d r']; [cbn [length]; lia|].
    assert (Hr' : length r' <= length (Encoding.utf8_encode r') <= 3 * length r')
      by (apply IH; simpl in Hlen; lia).
    destruct (Encoding.is_low_surrogate d); cbv zeta; cbn [length] in *; lia.
  - destruct (Encoding.is_low_surrogate c); cbn [length]; lia.
Qed.

(** The UTF-8 encoding of a string has at least one byte and at most three
    bytes per UTF-16 code unit. *)
Lemma utf8_encode_length (s : jstring) :
  length s <= length (Encoding.utf8_encode s) <= 3 * length s.
Proof. apply (@utf8_encode_length_aux (length s)). lia. Qed.

Section ByteEstimate.
Context {H : Host}.

(** Both estimates of [estimateUtf8Bytes], the encoder's count and the
    fallback [ceil(1.5 * length)], lie between the length of the string and
    three times the length. *)
Lemma byte_estimate_bounds (s : jstring) :
  TextEncoder_length s = length (Encoding.utf8_encode s) ->
  (Z.of_nat (length s) <= WebWorker.estimateUtf8Bytes s <= 3 * Z.of_nat (length s))%Z.
Proof.
  intro Henc. unfold WebWorker.estimateUtf8Bytes.
  destruct TextEncoder_defined.
  - rewrite Henc. pose proof (utf8_encode_length s). lia.
  - zify. Z.to_euclidean_division_equations. lia.
Qed.

(** So a text of at least [workerThresholdBytes] code units goes to the
    worker, on every platform that has one, whether it has TextEncoder or
    not and whatever the text holds. *)
Theorem long_text_goes_to_worker (opts : WebWorker.options) (s : jstring) :
  TextEncoder_length s = length (Encoding.utf8_encode s) ->
  Worker_defined = true ->
  WebWorker.useWorker opts = true ->
  (0 < WebWorker.workerThresholdBytes opts <= Z.of_nat (length s))%Z ->
  WebWorker.dispatch opts (VStr s) = WebWorker.Background.
Proof.
  intros Henc Hw Hu Hthr. apply dispatch_background.
  split; [destruct s; [simpl in Hthr; lia | reflexivity]|].
  split; [assumption|].
  apply shouldUseWorker_iff. split; [assumption|]. right.
  change (WebWorker.estimatedBytes (VStr s)) with (WebWorker.estimateUtf8Bytes s).
  pose proof (byte_estimate_bounds s Henc). lia.
Qed.

End ByteEstimate.

(** Sixty letters against a byte threshold of 50. *)
Lemma long_text_witness :
  WebWorker.dispatch (H := Reference.host)
    {| WebWorker.useWorker := true;
       WebWorker.workerThresholdEvents := 100;
       WebWorker.workerThresholdBytes := 50;
       WebWorker.chunkSize := 50;
       WebWorker.workerTimeoutMs := 3000;
       WebWorker.debug := false |}
    (VStr (repeat (ch "a") 60))
  = WebWorker.Background.
Proof.
  apply (@long_text_goes_to_worker Reference.host); try reflexivity.
  simpl. lia.
Defined.

(** ** transformSnowplowPayload.js *)

Section MapMAbrupt.
Variables A B : Type.
Variable f : A -> completion B.

(** One throwing element ends [map]. *)
Lemma mapM_abrupt (l : list A) (x : A) (e : error) :
  In x l -> f x = Abrupt e -> mapM f l = Abrupt TypeError.
Proof.
  intros Hin Hx. induction l as [|a r IH]; [contradiction|]. simpl.
  destruct (f a) as [y|[]] eqn:Ea; [|reflexivity].
  destruct Hin as [->|Hin]; [congruence|].
  simpl. now rewrite (IH Hin).
Qed.

End MapMAbrupt.

Section Legacy.
Context {H : Host}.

Lemma legacy_bad_timestamp (ev : value) (e : error) :
  is_object ev = true ->
  truthy (get ev "dtm") = true ->
  ToNumber (get ev "dtm") = Abrupt e ->
  SnowplowParser.parseSnowplowEvent ev = Abrupt e.
Proof.
  unfold is_object. intros Hobj Hdtm Hnum.
  apply andb_true_iff in Hobj as [Ht Ho].
  unfold SnowplowParser.parseSnowplowEvent, SnowplowParser.common.
  now rewrite Ht, Ho, Hdtm, Hnum.
Qed.

(** One event whose [dtm] cannot be converted to a number rejects the whole
    call, for a bare array and for an envelope: the events before and after it
    are lost with it. *)
Theorem legacy_bad_timestamp_rejects_batch (xs : list value) (ev : value) (e : error) :
  In ev xs ->
  is_object ev = true ->
  truthy (get ev "dtm") = true ->
  ToNumber (get ev "dtm") = Abrupt e ->
  SnowplowParser.transformSnowplowPayload (VArr xs) = Rejected TypeError
  /\ forall schema,
       truthy schema = true ->
       SnowplowParser.transformSnowplowPayload
         (VObj [(js "schema", schema); (js "data", VArr xs)])
       = Rejected TypeError.
Proof.
  intros Hin Hobj Hdtm Hnum.
  pose proof (legacy_bad_timestamp ev Hobj Hdtm Hnum) as Hev.
  assert (Hmap : map_filter SnowplowParser.parseSnowplowEvent xs = Abrupt TypeError)
    by (unfold map_filter; now rewrite (mapM_abrupt _ xs ev Hin Hev)).
  split.
  - change (SnowplowParser.transformSnowplowPayload (VArr xs))
      with (settle (map_filter SnowplowParser.parseSnowplowEvent xs)).
    now rewrite Hmap.
  - intros schema Hs.
    unfold SnowplowParser.transformSnowplowPayload, SnowplowParser.parse_resolved.
    change (get (VObj [(js "schema", schema); (js "data", VArr xs)]) "schema")
      with schema.
    change (get (VObj [(js "schema", schema); (js "data", VArr xs)]) "data")
      with (VArr xs).
    rewrite Hs. simpl. now rewrite Hmap.
Qed.

(** A text that is neither JSON nor base64 is not kept: [atob] throws, the
    decoder answers null, [JSON.parse(null)] is null, and the call yields one
    ['unknown'] event whose payload is null.  The ['raw_text'] event is out of
    reach for such a text. *)
Theorem legacy_undecodable_text_is_lost (s : jstring) :
  s <> [] ->
  JSON_parse s = None ->
  WebWorker.call_atob (pad4 (from_urlsafe s)) = None ->
  JSON_parse (js "null") = Some VNull ->
  SnowplowParser.transformSnowplowPayload (VStr s)
  = Fulfilled [VObj [(js "eventType", str "unknown"); (js "payload", VNull)]].
Proof.
  intros Hs Hjson Hatob Hnull. destruct s as [|c s]; [congruence|].
  unfold SnowplowParser.transformSnowplowPayload.
  change (negb (truthy (VStr (c :: s)))) with false. cbv iota.
  rewrite Hjson. unfold SnowplowParser.base64DecodeToString.
  change (negb (truthy (VStr (c :: s)))) with false. cbv iota.
  unfold from_urlsafe in Hatob. rewrite Hatob.
  change (JSON_parse_value VNull) with (JSON_parse (js "null")).
  rewrite Hnull. reflexivity.
Qed.

Lemma legacy_common_inv (ev : value) (cm : list (jstring * value)) :
  SnowplowParser.common ev = Normal cm ->
  exists ts,
    cm = [ (js "eid", js_or (get ev "eid") VNull);
           (js "ts", VNum ts);
           (js "vid", js_or (get ev "vid") VNull);
           (js "sid", js_or (get ev "sid") VNull);
           (js "p", js_or (get ev "p") VNull);
           (js "url", js_or (js_or (get ev "url") (get ev "pageUrl")) VNull);
           (js "raw", ev) ].
Proof.
  unfold SnowplowParser.common. intro E.
  apply bind_normal in E as (ts & _ & E). injection E as <-. now exists ts.
Qed.

(** A self-describing event whose carrier decodes to a value without a truthy
    [self], as the usual [{schema, data}] carrier does: the decoded carrier is
    not used.  Unless [ue_px] is itself JSON text, the payload is the raw event
    and the record has no [schema]. *)
Theorem legacy_carrier_without_self_is_dropped
        (ev d : value) (cm : list (jstring * value)) :
  is_object ev = true ->
  get ev "e" = str "ue" ->
  SnowplowParser.common ev = Normal cm ->
  SnowplowParser.tryDecodeBase64Json (get ev "ue_px") = d ->
  truthy d = true ->
  truthy (get d "self") = false ->
  JSON_parse_value (get ev "ue_px") = None ->
  exists r,
    SnowplowParser.parseSnowplowEvent ev = Normal r
    /\ get r "eventType" = str "unstruct"
    /\ get r "payload" = ev
    /\ has_own r "schema" = false.
Proof.
  unfold is_object. intros Hobj He Hcm Hd Ht Hself Hjson.
  apply andb_true_iff in Hobj as [Hev Ho].
  unfold SnowplowParser.parseSnowplowEvent.
  rewrite Hev, Ho, Hcm, He, Hd. simpl negb. simpl orb. cbv iota. simpl bind.
  change (str_is (str "ue") "se") with false.
  change (str_is (str "ue") "structured_event") with false.
  change (str_is (str "ue") "ue") with true.
  simpl orb. cbv iota.
  assert (Ed : js_or (js_or d (SnowplowParser.tryDecodeBase64Json
                                (get ev "unstruct_event"))) VNull = d)
    by (unfold js_or; now rewrite !Ht).
  rewrite Ed, Hself, andb_false_r, Hjson.
  eexists. split; [reflexivity|].
  apply legacy_common_inv in Hcm as (ts & ->). repeat split.
Qed.

End Legacy.

Lemma legacy_bad_timestamp_witness :
  SnowplowParser.transformSnowplowPayload (H := Reference.host)
    (VArr [VObj [(js "e", str "pv")]; bad_event])
  = Rejected TypeError
  /\ forall schema,
       truthy schema = true ->
       SnowplowParser.transformSnowplowPayload (H := Reference.host)
         (VObj [(js "schema", schema);
                (js "data", VArr [VObj [(js "e", str "pv")]; bad_event])])
       = Rejected TypeError.
Proof.
  apply (@legacy_bad_timestamp_rejects_batch Reference.host
           [VObj [(js "e", str "pv")]; bad_event] bad_event TypeError).
  - right. left. reflexivity.
  - reflexivity.
  - reflexivity.
  - reflexivity.
Defined.

Lemma legacy_undecodable_text_witness :
  SnowplowParser.transformSnowplowPayload (H := Reference.host)
    (str "not-json-not-base64###")
  = Fulfilled [VObj [(js "eventType", str "unknown"); (js "payload", VNull)]].
Proof.
  apply (@legacy_undecodable_text_is_lost Reference.host (js "not-json-not-base64###")).
  - discriminate.
  - vm_compute. reflexivity.
  - vm_compute. reflexivity.
  - vm_compute. reflexivity.
Defined.

(** The carrier [{schema: 's', data: {a: 1}}] in [ue_px]. *)
Lemma legacy_carrier_witness :
  exists r,
    SnowplowParser.parseSnowplowEvent (H := Reference.host)
      (VObj [(js "e", str "ue");
             (js "ue_px", VStr (Encoding.encode_urlsafe false
                                  (json_text "{'schema':'s','data':{'a':1}}")))])
    = Normal r
    /\ get r "eventType" = str "unstruct"
    /\ get r "payload"
       = VObj [(js "e", str "ue");
               (js "ue_px", VStr (Encoding.encode_urlsafe false
                                    (json_text "{'schema':'s','data':{'a':1}}")))]
    /\ has_own r "schema" = false.
Proof.
  eapply (@legacy_carrier_without_self_is_dropped Reference.host
            (VObj [(js "e", str "ue");
                   (js "ue_px", VStr (Encoding.encode_urlsafe false
                                        (json_text "{'schema':'s','data':{'a':1}}")))])).
  - reflexivity.
  - reflexivity.
  - vm_compute. reflexivity.
  - reflexivity.
  - vm_compute. reflexivity.
  - vm_compute. reflexivity.
  - vm_compute. reflexivity.
Defined.

(** ** errorHandler.js: the report filter *)

Section ErrorFilter.

Import ErrorHandler.

Lemma jstr_eqb_refl (k : jstring) : jstr_eqb k k = true.
Proof. now apply jstr_eqb_eq. Qed.

Lemma map_set_length (k : jstring) (v : Z) (m : list (jstring * Z)) :
  length (map_set k v m)
  = match map_get k m with Some _ => length m | None => S (length m) end.
Proof.
  induction m as [|[k' v'] m IH]; simpl; [reflexivity|].
  destruct (jstr_eqb k k'); simpl; [reflexivity|].
  rewrite IH. now destruct (map_get k m).
Qed.

Lemma map_get_set (k : jstring) (v : Z) (m : list (jstring * Z)) :
  map_get k (map_set k v m) = Some v.
Proof.
  induction m as [|[k' v'] m IH]; simpl; [now rewrite jstr_eqb_refl|].
  destruct (jstr_eqb k k') eqn:E; simpl; now rewrite E.
Qed.

Lemma map_set_new (k : jstring) (v : Z) (m : list (jstring * Z)) :
  map_get k m = None -> map_set k v m = m ++ [(k, v)].
Proof.
  induction m as [|[k' v'] m IH]; simpl; [reflexivity|].
  destruct (jstr_eqb k k'); [discriminate|]. intro E. now rewrite IH.
Qed.

(** What the pruning loop leaves: the entries whose key is not among the
    deleted keys. *)
Lemma delete_keys_filter (ks : list jstring) (m : list (jstring * Z)) :
  fold_left (fun acc k => map_delete k acc) ks m
  = filter (fun kv => negb (existsb (fun k => jstr_eqb k (fst kv)) ks)) m.
Proof.
  revert m. induction ks as [|k ks IH]; intro m; simpl.
  - induction m as [|kv m IHm]; simpl; [reflexivity | now rewrite <- IHm].
  - rewrite IH. unfold map_delete. clear IH.
    induction m as [|kv m IHm]; simpl; [reflexivity|].
    destruct (jstr_eqb k (fst kv)); simpl; [exact IHm|].
    destruct (existsb (fun k0 => jstr_eqb k0 (fst kv)) ks); simpl;
      [exact IHm | now rewrite IHm].
Qed.

Lemma filter_length_le (A : Type) (p : A -> bool) (l : list A) :
  length (filter p l) <= length l.
Proof.
  induction l as [|a l IH]; simpl; [lia|]. destruct (p a); simpl; lia.
Qed.

Lemma filter_none (A : Type) (p : A -> bool) (l : list A) :
  (forall a, In a l -> p a = false) -> filter p l = [].
Proof.
  induction l as [|a l IH]; intro Hl; simpl; [reflexivity|].
  rewrite (Hl a (or_introl eq_refl)). apply IH. intros b Hb. apply Hl. now right.
Qed.

Lemma prune_filter (m : list (jstring * Z)) :
  prune m
  = filter (fun kv => negb (existsb (fun k => jstr_eqb k (fst kv))
                                    (firstn 100 (map fst m)))) m.
Proof. apply delete_keys_filter. Qed.

(** Pruning removes at least the first hundred entries. *)
Lemma prune_length (m : list (jstring * Z)) :
  length (prune m) <= length m - Nat.min 100 (length m).
Proof.
  rewrite prune_filter.
  set (p := fun kv : jstring * Z =>
              negb (existsb (fun k => jstr_eqb k (fst kv)) (firstn 100 (map fst m)))).
  rewrite <- (firstn_skipn 100 m) at 1. rewrite filter_app, length_app.
  rewrite (filter_none p (firstn 100 m)).
  - change (length (@nil (jstring * Z))) with 0.
    pose proof (filter_length_le p (skipn 100 m)) as Hle.
    rewrite length_skipn in Hle. lia.
  - intros kv Hin. unfold p. apply negb_false_iff, existsb_exists.
    exists (fst kv). split; [|apply jstr_eqb_refl].
    rewrite firstn_map. now apply in_map.
Qed.

Lemma map_get_filter (p : jstring -> bool) (k : jstring) (m : list (jstring * Z)) :
  map_get k (filter (fun kv => p (fst kv)) m)
  = if p k then map_get k m else None.
Proof.
  induction m as [|[k' v'] m IH]; simpl; [now destruct (p k)|].
  destruct (jstr_eqb k k') eqn:E.
  - apply jstr_eqb_eq in E. subst k'. destruct (p k) eqn:Ep; simpl.
    + now rewrite jstr_eqb_refl.
    + rewrite IH. now rewrite ?Ep.
  - destruct (p k'); simpl; [now rewrite E|]; exact IH.
Qed.

Lemma map_get_prune (k : jstring) (m : list (jstring * Z)) :
  map_get k (prune m)
  = if existsb (fun k' => jstr_eqb k' k) (firstn 100 (map fst m))
    then None else map_get k m.
Proof.
  rewrite prune_filter.
  rewrite (map_get_filter
             (fun x => negb (existsb (fun k' => jstr_eqb k' x) (firstn 100 (map fst m))))).
  now destruct (existsb (fun k' => jstr_eqb k' k) (firstn 100 (map fst m))).
Qed.

Lemma map_get_none_keys (k : jstring) (m : list (jstring * Z)) :
  map_get k m = None -> existsb (fun k' => jstr_eqb k' k) (map fst m) = false.
Proof.
  induction m as [|[k' v'] m IH]; simpl; [reflexivity|].
  destruct (jstr_eqb k k') eqn:E; [discriminate|]. intro Hm.
  rewrite (IH Hm), orb_false_r.
  destruct (jstr_eqb k' k) eqn:E'; [|reflexivity].
  apply jstr_eqb_eq in E'. subst. now rewrite jstr_eqb_refl in E.
Qed.

Lemma existsb_firstn_false (A : Type) (p : A -> bool) (n : nat) (l : list A) :
  existsb p l = false -> existsb p (firstn n l) = false.
Proof.
  revert n. induction l as [|a l IH]; intros [|n]; simpl; try reflexivity.
  intro E. apply orb_false_iff in E as [-> E]. now apply IH.
Qed.

Lemma next_recent_length (key : jstring) (now : Z) (m : list (jstring * Z)) :
  length m <= 1000 -> length (next_recent key now m) <= 1000.
Proof.
  intro Hm. unfold next_recent.
  destruct (Nat.ltb_spec 1000 (length (map_set key now m))) as [Hl|Hl]; [|exact Hl].
  pose proof (prune_length (map_set key now m)) as Hp.
  rewrite map_set_length in Hl, Hp. destruct (map_get key m); lia.
Qed.

Lemma shouldSendError_recent (key : jstring) (now : Z) (st : state) :
  recentErrors (snd (shouldSendError key now st))
  = if fst (shouldSendError key now st)
    then next_recent key now (recentErrors st)
    else recentErrors st.
Proof.
  unfold shouldSendError, next_recent.
  destruct (maxPerMinute <? _)%Z; [reflexivity|].
  destruct (match map_get key (recentErrors st) with
            | Some last => _ | None => false end); reflexivity.
Qed.

Lemma shouldSendError_bounded (key : jstring) (now : Z) (st : state) :
  length (recentErrors st) <= 1000 ->
  length (recentErrors (snd (shouldSendError key now st))) <= 1000.
Proof.
  intro Hm. rewrite shouldSendError_recent.
  destruct (fst (shouldSendError key now st)); [now apply next_recent_length | exact Hm].
Qed.

Lemma run_bounded (calls : list (jstring * Z)) (st : state) :
  length (recentErrors st) <= 1000 ->
  length (recentErrors (snd (run calls st))) <= 1000.
Proof.
  revert st. induction calls as [|[key now] calls IH]; intros st Hm; [exact Hm|].
  simpl. pose proof (shouldSendError_bounded key now st Hm) as H1.
  destruct (shouldSendError key now st) as [b st1]. simpl in H1.
  specialize (IH st1 H1). destruct (run calls st1) as [bs st2]. exact IH.
Qed.

(** The Map of recent errors never holds more than 1000 keys, whatever the
    errors reported since the module was loaded. *)
Theorem recent_errors_stay_bounded (t0 : Z) (calls : list (jstring * Z)) :
  length (recentErrors (snd (run calls (initial t0)))) <= 1000.
Proof. apply run_bounded. simpl. lia. Qed.

Lemma next_recent_has_key (key : jstring) (now : Z) (m : list (jstring * Z)) :
  length m <= 1000 -> map_get key (next_recent key now m) = Some now.
Proof.
  intro Hm. unfold next_recent.
  destruct (Nat.ltb_spec 1000 (length (map_set key now m))) as [Hl|Hl];
    [|apply map_get_set].
  rewrite map_set_length in Hl.
  destruct (map_get key m) eqn:Ek; [lia|].
  rewrite map_get_prune, map_get_set.
  rewrite (map_set_new key now m Ek), map_app, firstn_app.
  replace (100 - length (map fst m)) with 0 by (rewrite length_map; lia).
  rewrite firstn_O, app_nil_r.
  now rewrite (existsb_firstn_false _ 100 _ (map_get_none_keys key m Ek)).
Qed.

(** A call inside the current window that passes both tests. *)
Lemma shouldSendError_accepts (key : jstring) (now : Z) (st : state) :
  (now - errorCountWindowStart st <= 60000)%Z ->
  (errorCountInWindow st + 1 <= 300)%Z ->
  match map_get key (recentErrors st) with
  | Some last => (last = 0 \/ 60000 <= now - last)%Z
  | None => True
  end ->
  shouldSendError key now st
  = (true, {| recentErrors := next_recent key now (recentErrors st);
              errorCountWindowStart := errorCountWindowStart st;
              errorCountInWindow := errorCountInWindow st + 1 |}).
Proof.
  intros Hw Hc Hd. unfold shouldSendError, next_recent, maxPerMinute, ERROR_DEDUP_MS.
  destruct (Z.ltb_spec 60000 (now - errorCountWindowStart st)) as [Hlt|_]; [lia|].
  destruct (Z.ltb_spec 300 (errorCountInWindow st + 1)) as [Hlt|_]; [lia|].
  destruct (map_get key (recentErrors st)) as [last|]; [|reflexivity].
  destruct (Z.eqb_spec last 0) as [->|Hz]; [reflexivity|].
  destruct (Z.ltb_spec (now - last) (60 * 1000)) as [Hlt|_]; [lia | reflexivity].
Qed.

(** An error that was just let through is not let through again within the
    next 60 seconds: the call that follows with the same key answers false. *)
Theorem repeated_error_is_dropped (key : jstring) (now now' : Z) (st : state) :
  length (recentErrors st) <= 1000 ->
  now <> 0%Z ->
  (now' - now < 60000)%Z ->
  fst (shouldSendError key now st) = true ->
  fst (shouldSendError key now' (snd (shouldSendError key now st))) = false.
Proof.
  intros Hm Hnow Hlt Hsent.
  pose proof (shouldSendError_recent key now st) as Hrec. rewrite Hsent in Hrec.
  pose proof (next_recent_has_key key now (recentErrors st) Hm) as Hkey.
  rewrite <- Hrec in Hkey.
  unfold shouldSendError at 1.
  destruct (maxPerMinute <? _)%Z; [reflexivity|].
  rewrite Hkey.
  destruct (Z.eqb_spec now 0) as [E|_]; [contradiction|].
  unfold ERROR_DEDUP_MS.
  destruct (Z.ltb_spec (now' - now) (60 * 1000)) as [_|Hge]; [reflexivity | lia].
Qed.

(** The guard against duplicates is lost when the key is pruned.  A key that
    is re-reported keeps its place in the Map; when it is among the first
    hundred of a full Map, the next new key prunes it, and the same error is
    let through again at once. *)
Theorem pruning_loses_the_duplicate_guard
        (k k2 : jstring) (last t1 t2 t3 : Z) (rest : list (jstring * Z)) (st : state) :
  recentErrors st = (k, last) :: rest ->
  length rest = 999 ->
  map_get k2 (recentErrors st) = None ->
  (last = 0 \/ 60000 <= t1 - last)%Z ->
  (t1 - errorCountWindowStart st <= 60000)%Z ->
  (t2 - errorCountWindowStart st <= 60000)%Z ->
  (t3 - errorCountWindowStart st <= 60000)%Z ->
  (errorCountInWindow st + 3 <= 300)%Z ->
  fst (run [(k, t1); (k2, t2); (k, t3)] st) = [true; true; true].
Proof.
  intros Hrec Hlen Hk2 Hlast Hw1 Hw2 Hw3 Hc.
  assert (Hne : jstr_eqb k2 k = false /\ map_get k2 rest = None).
  { rewrite Hrec in Hk2. simpl in Hk2. destruct (jstr_eqb k2 k); [discriminate|].
    now split. }
  destruct Hne as [Hne Hrest].
  unfold run.
  rewrite (shouldSendError_accepts k t1 st) by
    (try lia; rewrite Hrec; simpl; now rewrite jstr_eqb_refl).
  assert (E1 : next_recent k t1 (recentErrors st) = (k, t1) :: rest).
  { rewrite Hrec. unfold next_recent. simpl map_set. rewrite jstr_eqb_refl.
    cbn [length]. rewrite Hlen. reflexivity. }
  rewrite E1.
  rewrite shouldSendError_accepts; cbn [recentErrors errorCountWindowStart
                                        errorCountInWindow]; try lia.
  2: { simpl. now rewrite Hne, Hrest. }
  assert (E2 : map_get k (next_recent k2 t2 ((k, t1) :: rest)) = None).
  { unfold next_recent. rewrite map_set_length. simpl map_get at 1.
    rewrite Hne, Hrest. cbn [length]. rewrite Hlen.
    change (1000 <? 1001) with true. cbv iota.
    rewrite map_get_prune.
    change 100 with (S 99). cbn [map fst firstn existsb].
    now rewrite jstr_eqb_refl. }
  rewrite shouldSendError_accepts; cbn [recentErrors errorCountWindowStart
                                        errorCountInWindow]; try lia.
  - reflexivity.
  - now rewrite E2.
Qed.

Lemma shouldSendError_in_window (key : jstring) (now : Z) (st : state) :
  (now - errorCountWindowStart st <= 60000)%Z ->
  errorCountWindowStart (snd (shouldSendError key now st)) = errorCountWindowStart st
  /\ errorCountInWindow (snd (shouldSendError key now st)) = (errorCountInWindow st + 1)%Z
  /\ (fst (shouldSendError key now st) = true -> errorCountInWindow st + 1 <= 300)%Z.
Proof.
  intro Hw. unfold shouldSendError, maxPerMinute.
  destruct (Z.ltb_spec 60000 (now - errorCountWindowStart st)) as [Hlt|_]; [lia|].
  destruct (Z.ltb_spec 300 (errorCountInWindow st + 1)) as [Hlt|Hle].
  - simpl. repeat split. discriminate.
  - destruct (match map_get key (recentErrors st) with
              | Some last => _ | None => false end); simpl; repeat split;
      try discriminate; intros _; exact Hle.
Qed.

(** Past the limit, nothing is let through for the rest of the window. *)
Lemma run_past_limit (calls : list (jstring * Z)) (st : state) :
  (300 < errorCountInWindow st)%Z ->
  (forall key now, In (key, now) calls ->
                   (now - errorCountWindowStart st <= 60000)%Z) ->
  count_occ bool_dec (fst (run calls st)) true = 0.
Proof.
  revert st. induction calls as [|[key now] calls IH]; intros st Hc Hw; [reflexivity|].
  destruct (shouldSendError_in_window key now st) as (Es & En & Eb);
    [apply (Hw key now); now left|].
  simpl. destruct (shouldSendError key now st) as [b st1]. simpl in Es, En, Eb.
  assert (b = false) by (destruct b; [specialize (Eb eq_refl); lia | reflexivity]).
  subst b.
  assert (Hw1 : forall key' now', In (key', now') calls ->
                                  (now' - errorCountWindowStart st1 <= 60000)%Z).
  { intros key' now' Hin. rewrite Es. apply (Hw key' now'). now right. }
  pose proof (IH st1 ltac:(lia) Hw1) as Hrest.
  destruct (run calls st1) as [bs st2]. exact Hrest.
Qed.

(** The rate limit: among the calls that fall into the current window, those
    let through and those counted before them are at most 300. *)
Theorem rate_limit_within_window (calls : list (jstring * Z)) (st : state) :
  (forall key now, In (key, now) calls ->
                   (now - errorCountWindowStart st <= 60000)%Z) ->
  (errorCountInWindow st <= 300)%Z ->
  (Z.of_nat (count_occ bool_dec (fst (run calls st)) true) + errorCountInWindow st
   <= 300)%Z.
Proof.
  revert st. induction calls as [|[key now] calls IH]; intros st Hw Hc;
    [simpl; lia|].
  destruct (shouldSendError_in_window key now st) as (Hs & Hn & Hb);
    [apply (Hw key now); now left|].
  simpl. destruct (shouldSendError key now st) as [b st1]. simpl in Hs, Hn, Hb.
  assert (Hw1 : forall key' now', In (key', now') calls ->
                                  (now' - errorCountWindowStart st1 <= 60000)%Z).
  { intros key' now' Hin. rewrite Hs. apply (Hw key' now'). now right. }
  destruct (Z_le_gt_dec (errorCountInWindow st1) 300) as [Hle|Hgt].
  - pose proof (IH st1 Hw1 Hle) as Hrest.
    destruct (run calls st1) as [bs st2].
    change (fst (b :: bs, st2)) with (b :: bs). change (fst (bs, st2)) with bs in Hrest.
    destruct b; [rewrite count_occ_cons_eq by reflexivity
                | rewrite count_occ_cons_neq by discriminate]; lia.
  - (* the counter is past the limit: nothing more is let through *)
    assert (Hb' : b = false) by (destruct b; [specialize (Hb eq_refl); lia | reflexivity]).
    subst b.
    pose proof (run_past_limit calls st1 ltac:(lia) Hw1) as Hnone.
    destruct (run calls st1) as [bs st2].
    change (fst (false :: bs, st2)) with (false :: bs).
    change (fst (bs, st2)) with bs in Hnone.
    rewrite count_occ_cons_neq by discriminate. rewrite Hnone. lia.
Qed.

End ErrorFilter.

Lemma repeated_error_witness :
  fst (ErrorHandler.shouldSendError (js "boom") 3000
         (snd (ErrorHandler.shouldSendError (js "boom") 2000 (ErrorHandler.initial 1000))))
  = false.
Proof.
  apply (@repeated_error_is_dropped (js "boom") 2000%Z 3000%Z (ErrorHandler.initial 1000)).
  - simpl. lia.
  - discriminate.
  - lia.
  - reflexivity.
Defined.

(** ['boom'] is reported again, ['other'] is new, ['boom'] is let through a
    second time one millisecond later. *)
Lemma pruning_witness :
  fst (ErrorHandler.run
         [(js "boom", 100001%Z); (js "other", 100002%Z); (js "boom", 100003%Z)]
         {| ErrorHandler.recentErrors := full_recent;
            ErrorHandler.errorCountWindowStart := 100000;
            ErrorHandler.errorCountInWindow := 0 |})
  = [true; true; true].
Proof.
  apply (@pruning_loses_the_duplicate_guard (js "boom") (js "other") 1%Z
           100001%Z 100002%Z 100003%Z
           (map (fun i => (Reference.decimal (N.of_nat i), 1%Z)) (seq 1 999))).
  - reflexivity.
  - vm_compute. reflexivity.
  - vm_compute. reflexivity.
  - right. lia.
  - simpl. lia.
  - simpl. lia.
  - simpl. lia.
  - simpl. lia.
Defined.

Lemma rate_limit_witness :
  (Z.of_nat (count_occ bool_dec
               (fst (ErrorHandler.run [(js "a", 1%Z); (js "b", 2%Z)]
                       {| ErrorHandler.recentErrors := [];
                          ErrorHandler.errorCountWindowStart := 0;
                          ErrorHandler.errorCountInWindow := 299 |})) true)
   + 299 <= 300)%Z.
Proof.
  apply (@rate_limit_within_window [(js "a", 1%Z); (js "b", 2%Z)]
           {| ErrorHandler.recentErrors := [];
              ErrorHandler.errorCountWindowStart := 0;
              ErrorHandler.errorCountInWindow := 299 |}).
  - intros key now [E|[E|[]]]; injection E as _ <-; simpl; lia.
  - simpl. lia.
Defined.

(** ** const.js: the request id and the outbound record *)

Lemma split_nonempty (sep : ascii) (s : jstring) : Outbound.split sep s <> [].
Proof.
  destruct s as [|c r]; simpl; [discriminate|].
  destruct (N.eqb c (ch sep)); [discriminate|].
  destruct (Outbound.split sep r); discriminate.
Qed.

Lemma split_no_sep (sep : ascii) (s : jstring) :
  has_char sep s = false -> Outbound.split sep s = [s].
Proof.
  unfold has_char. induction s as [|c r IH]; simpl; [reflexivity|].
  intro E. apply orb_false_iff in E as [Ec Er].
  rewrite N.eqb_sym, Ec. now rewrite (IH Er).
Qed.

(** Splitting at a separator splits both sides. *)
Lemma split_app (sep : ascii) (p b : jstring) :
  Outbound.split sep (p ++ ch sep :: b) = Outbound.split sep p ++ Outbound.split sep b.
Proof.
  induction p as [|c p IH]; simpl.
  - now rewrite N.eqb_refl.
  - destruct (N.eqb c (ch sep)); [now rewrite IH|].
    rewrite IH. pose proof (split_nonempty sep p) as Hne.
    destruct (Outbound.split sep p) as [|h t]; [congruence | reflexivity].
Qed.

Lemma has_char_app (c : ascii) (a b : jstring) :
  has_char c (a ++ b) = has_char c a || has_char c b.
Proof. apply existsb_app. Qed.

Lemma has_char_cons (c : ascii) (x : code_unit) (s : jstring) :
  has_char c (x :: s) = N.eqb (ch c) x || has_char c s.
Proof. reflexivity. Qed.

Section OutboundRecord.
Context {H : Host}.
Variable pg : Outbound.page.

(** The name of the record is the second segment of the schema path: for a
    schema [prefix:vendor/name/rest] whose vendor and name hold neither [:]
    nor [/] and whose rest holds no [:], the [eventType] is [name], whatever
    the prefix. *)
Theorem outbound_event_type_is_schema_name
        (uuid : jstring) (stored : option jstring) (raw event : value)
        (prefix vendor name rest : jstring) :
  raw = event \/ (exists more, raw = VArr (event :: more)) ->
  truthy event = true ->
  truthy (get event "unstruct_event") = true ->
  get (get event "unstruct_event") "schema"
  = VStr (prefix ++ ch ":" :: vendor ++ ch "/" :: name ++ ch "/" :: rest) ->
  has_char ":" vendor = false -> has_char "/" vendor = false ->
  has_char ":" name = false -> has_char "/" name = false ->
  has_char ":" rest = false ->
  exists r,
    fst (Outbound.transformSnowplowPayload pg uuid raw stored) = Normal r
    /\ get r "eventType" = VStr name
    /\ get r "schema"
       = VStr (prefix ++ ch ":" :: vendor ++ ch "/" :: name ++ ch "/" :: rest).
Proof.
  intros Hraw Hev Hue Hschema Hv1 Hv2 Hn1 Hn2 Hr1.
  unfold Outbound.transformSnowplowPayload.
  assert (Eev : match raw with VArr xs => nth 0 xs VUndefined | _ => raw end = event).
  { destruct Hraw as [->|[more ->]]; [|reflexivity].
    destruct event; try reflexivity; discriminate. }
  rewrite Eev, Hev, Hue, Hschema. clear Eev. simpl andb. cbv iota.
  assert (Etruthy : js_or (VStr (prefix ++ ch ":" :: vendor ++ ch "/" :: name ++ ch "/" :: rest))
                          (VStr [])
                    = VStr (prefix ++ ch ":" :: vendor ++ ch "/" :: name ++ ch "/" :: rest))
    by (unfold js_or; destruct prefix; reflexivity).
  rewrite Etruthy. cbv iota beta.
  assert (Etail : has_char ":" (vendor ++ ch "/" :: name ++ ch "/" :: rest) = false).
  { rewrite has_char_app, has_char_cons, has_char_app, has_char_cons.
    rewrite Hv1, Hn1, Hr1. reflexivity. }
  rewrite split_app, (split_no_sep ":" _ Etail), last_last.
  rewrite split_app, (split_no_sep "/" vendor Hv2).
  rewrite split_app, (split_no_sep "/" name Hn2).
  change (nth_error ([vendor] ++ [name] ++ Outbound.split "/" rest) 1) with (Some name).
  cbv iota. destruct (Outbound.getRequestId uuid stored) as [id stored'].
  eexists. split; [reflexivity|]. split; reflexivity.
Qed.

Lemma getRequestId_stable (uuid uuid' : jstring) (stored : option jstring) :
  uuid <> [] ->
  Outbound.getRequestId uuid' (snd (Outbound.getRequestId uuid stored))
  = Outbound.getRequestId uuid stored.
Proof.
  intro Hu. destruct stored as [[|c id]|]; simpl;
    try reflexivity; (destruct uuid; [congruence | reflexivity]).
Qed.

Lemma transform_request_id (uuid : jstring) (raw r : value) (stored : option jstring) :
  fst (Outbound.transformSnowplowPayload pg uuid raw stored) = Normal r ->
  get r "requestId" = VStr (fst (Outbound.getRequestId uuid stored))
  /\ snd (Outbound.transformSnowplowPayload pg uuid raw stored)
     = snd (Outbound.getRequestId uuid stored).
Proof.
  unfold Outbound.transformSnowplowPayload.
  set (event := match raw with VArr xs => nth 0 xs VUndefined | _ => raw end).
  destruct (truthy event && truthy (get event "unstruct_event")).
  - destruct (js_or (get (get event "unstruct_event") "schema") (VStr []));
      try discriminate.
    destruct (Outbound.getRequestId uuid stored) as [id stored']. simpl.
    intro E. injection E as <-. split; reflexivity.
  - destruct (truthy event && str_is (get event "event") "page_view");
      destruct (Outbound.getRequestId uuid stored) as [id stored']; simpl;
      intro E; injection E as <-; split; reflexivity.
Qed.

(** One id per session: the record of a call carries the same [requestId] as
    the record of the call before it, whatever the events are and whatever
    [uuidv4] would answer the second time. *)
Theorem request_id_is_shared
        (uuid uuid' : jstring) (raw raw' r r' : value) (stored : option jstring) :
  uuid <> [] ->
  fst (Outbound.transformSnowplowPayload pg uuid raw stored) = Normal r ->
  fst (Outbound.transformSnowplowPayload pg uuid' raw'
         (snd (Outbound.transformSnowplowPayload pg uuid raw stored))) = Normal r' ->
  get r' "requestId" = get r "requestId".
Proof.
  intros Hu E E'.
  apply transform_request_id in E as [Er Es]. rewrite Es in E'.
  apply transform_request_id in E' as [Er' _].
  now rewrite Er', Er, getRequestId_stable.
Qed.

End OutboundRecord.

Lemma outbound_event_type_witness :
  exists r,
    fst (Outbound.transformSnowplowPayload (H := Reference.host) some_page (js "id-1")
           (VArr [js_error_event]) None) = Normal r
    /\ get r "eventType" = str "js_error"
    /\ get r "schema" = str "iglu:com.acme/js_error/jsonschema/1-0-0".
Proof.
  apply (@outbound_event_type_is_schema_name Reference.host some_page (js "id-1") None
           (VArr [js_error_event]) js_error_event
           (js "iglu") (js "com.acme") (js "js_error") (js "jsonschema/1-0-0"));
    try reflexivity.
  right. now exists [].
Defined.

Lemma request_id_witness :
  exists r r',
    fst (Outbound.transformSnowplowPayload (H := Reference.host) some_page (js "id-1")
           js_error_event None) = Normal r
    /\ fst (Outbound.transformSnowplowPayload (H := Reference.host) some_page (js "id-2")
              (VObj [(js "event", str "page_view")])
              (snd (Outbound.transformSnowplowPayload (H := Reference.host) some_page
                      (js "id-1") js_error_event None))) = Normal r'
    /\ get r' "requestId" = get r "requestId".
Proof.
  eexists. eexists. split; [vm_compute; reflexivity|]. split; [vm_compute; reflexivity|].
  apply (@request_id_is_shared Reference.host some_page (js "id-1") (js "id-2")
           js_error_event (VObj [(js "event", str "page_view")]) _ _ None).
  - discriminate.
  - vm_compute. reflexivity.
  - vm_compute. reflexivity.
Defined.

(** ** useCustomFetch.js: the merged headers *)

Lemma jstr_eqb_sym (a b : jstring) : jstr_eqb a b = jstr_eqb b a.
Proof.
  destruct (jstr_eqb a b) eqn:E; destruct (jstr_eqb b a) eqn:E'; try reflexivity.
  - apply jstr_eqb_eq in E. subst. now rewrite jstr_eqb_refl in E'.
  - apply jstr_eqb_eq in E'. subst. now rewrite jstr_eqb_refl in E.
Qed.

(** Reading after a write. *)
Lemma lookup_obj_set (k k' : jstring) (v : value) (fields : list (jstring * value)) :
  lookup k (obj_set k' v fields)
  = if jstr_eqb k k' then Some v else lookup k fields.
Proof.
  induction fields as [|[k0 v0] fields IH]; simpl; [reflexivity|].
  destruct (jstr_eqb k' k0) eqn:E0; simpl.
  - apply jstr_eqb_eq in E0. subst k0. now destruct (jstr_eqb k k').
  - destruct (jstr_eqb k k0) eqn:Ek.
    + apply jstr_eqb_eq in Ek. subst k0. rewrite jstr_eqb_sym in E0. now rewrite E0.
    + exact IH.
Qed.

Lemma lookup_not_in (k : jstring) (fields : list (jstring * value)) :
  ~ In k (map fst fields) -> lookup k fields = None.
Proof.
  induction fields as [|[k0 v0] fields IH]; simpl; [reflexivity|]. intro Hn.
  destruct (jstr_eqb k k0) eqn:E.
  - apply jstr_eqb_eq in E. subst. tauto.
  - apply IH. tauto.
Qed.

(** Reading after a sequence of writes without a repeated key. *)
Lemma lookup_writes (k : jstring) (props acc : list (jstring * value)) :
  NoDup (map fst props) ->
  lookup k (fold_left (fun a kv => obj_set (fst kv) (snd kv) a) props acc)
  = match lookup k props with
    | Some v => Some v
    | None => lookup k acc
    end.
Proof.
  revert acc. induction props as [|[k0 v0] props IH]; intros acc Hnd; [reflexivity|].
  inversion Hnd as [|? ? Hnotin Hnd']; subst. simpl.
  rewrite (IH _ Hnd'), lookup_obj_set.
  destruct (jstr_eqb k k0) eqn:E; [|reflexivity].
  apply jstr_eqb_eq in E. subst k0. now rewrite (lookup_not_in _ _ Hnotin).
Qed.

(** Header precedence, for headers given as plain objects: a name set in the
    option headers has the option's value; any other name has the value of
    [init.headers], and [Content-Type] is ['application/json'] when
    [init.headers] has no truthy value for it. *)
Theorem option_headers_take_precedence
        (init options : list (jstring * value)) (k : jstring) :
  NoDup (map fst init) ->
  NoDup (map fst options) ->
  own_field (CustomFetch.buildMergedHeaders (VObj init) (VObj options)) k
  = match lookup k options with
    | Some v => Some v
    | None =>
        if jstr_eqb k (js "Content-Type")
        then Some (js_or (get (VObj init) "Content-Type") (str "application/json"))
        else lookup k init
    end.
Proof.
  intros Hi Ho.
  unfold own_field, CustomFetch.buildMergedHeaders, CustomFetch.assign.
  change (js_or (VObj init) (VObj [])) with (VObj init).
  change (CustomFetch.own_enumerable (VObj init)) with init.
  change (CustomFetch.own_enumerable (VObj options)) with options.
  rewrite (lookup_writes k options _ Ho).
  destruct (lookup k options); [reflexivity|].
  rewrite lookup_obj_set, !(lookup_writes _ init [] Hi).
  destruct (jstr_eqb k (js "Content-Type")).
  - unfold get. now destruct (lookup (js "Content-Type") init).
  - now destruct (lookup k init).
Qed.

(** The caller's [Content-Type] gives way to the one of the option headers,
    the caller's other header stays. *)
Lemma option_headers_witness :
  own_field
    (CustomFetch.buildMergedHeaders
       (VObj [(js "Content-Type", str "text/plain"); (js "X-Trace", str "1")])
       (VObj [(js "Content-Type", str "application/json")]))
    (js "Content-Type")
  = Some (str "application/json").
Proof.
  apply (@option_headers_take_precedence
           [(js "Content-Type", str "text/plain"); (js "X-Trace", str "1")]
           [(js "Content-Type", str "application/json")] (js "Content-Type")).
  - repeat constructor; simpl; intuition discriminate.
  - repeat constructor; simpl; intuition discriminate.
Defined.
